(** * Enterprise Content Analyzer (src/app.py): a shallow embedding

    The program is one Streamlit script.  Every user interaction re-runs it
    from top to bottom: the script reads the widget values, extracts text
    from the chosen source (a web page or an uploaded file), shows an error
    or a success banner, and, when asked, sends a prompt to a remote agent.

    The embedding follows the script:
    - Python strings are lists of Unicode code points, so that [s[:8000]],
      [strip], [split] and [splitlines] count characters as Python does;
    - a call that may raise returns an [outcome]; [try ... except Exception]
      is [try_except];
    - the libraries the script calls (requests, html.parser, PyPDF2, pandas,
      the agent) are the fields of a [World];
    - one re-run of the script is [render], which returns the list of things
      the page did, in order.

    The page decoration (style sheet, sidebar, titles, spinners) and the
    creation of the agent object are left out: nothing below depends on
    them. *)

From Stdlib Require Import String Ascii NArith Bool Arith Lia List.
From Stdlib.Strings Require Import Byte.
Import ListNotations.

Set Warnings "-abstract-large-number".

(** ** Python values used by the script *)

Module Py.

(** A character is a Unicode code point; a [str] is a sequence of them. *)
Definition char := N.
Definition str := list char.

(** A string literal of the source (all literals modelled are ASCII). *)
Definition lit (s : string) : str :=
  map (fun a => N_of_ascii a) (list_ascii_of_string s).

(** Truth value of a string in a condition: [if s:] holds for non-empty [s]. *)
Definition truthy (s : str) : bool :=
  match s with [] => false | _ :: _ => true end.

(** Truth value of a variable that holds [None] or a string. *)
Definition truthy_opt (v : option str) : bool :=
  match v with None => false | Some s => truthy s end.

Fixpoint str_eqb (a b : str) : bool :=
  match a, b with
  | [], [] => true
  | x :: a', y :: b' => N.eqb x y && str_eqb a' b'
  | _, _ => false
  end.

(** [s[:n]] for a non-negative [n]. *)
Definition slice_to (n : nat) (s : str) : str := firstn n s.

(** [sep.join(parts)]. *)
Fixpoint join (sep : str) (parts : list str) : str :=
  match parts with
  | [] => []
  | [p] => p
  | p :: ps => p ++ sep ++ join sep ps
  end.

(** [str.isspace] on one character (CPython's [Py_UNICODE_ISSPACE]). *)
Definition isspace (c : char) : bool :=
  ((9 <=? c) && (c <=? 13) || (28 <=? c) && (c <=? 32)
   || (c =? 133) || (c =? 160) || (c =? 5760)
   || (8192 <=? c) && (c <=? 8202)
   || (c =? 8232) || (c =? 8233) || (c =? 8239) || (c =? 8287)
   || (c =? 12288))%N.

(** Line boundaries of [str.splitlines] (CPython's [Py_UNICODE_ISLINEBREAK]). *)
Definition islinebreak (c : char) : bool :=
  ((10 <=? c) && (c <=? 13) || (28 <=? c) && (c <=? 30)
   || (c =? 133) || (c =? 8232) || (c =? 8233))%N.

Fixpoint dropwhile (p : char -> bool) (s : str) : str :=
  match s with
  | [] => []
  | c :: s' => if p c then dropwhile p s' else s
  end.

Definition lstrip (s : str) : str := dropwhile isspace s.
Definition rstrip (s : str) : str := rev (dropwhile isspace (rev s)).

(** [s.strip()]: leading and trailing whitespace removed. *)
Definition strip (s : str) : str := rstrip (lstrip s).

(** [s.splitlines()]: the lines of [s] without their line boundaries;
    carriage return followed by line feed is one boundary; a final boundary
    opens no further line. *)
Fixpoint splitlines (s : str) : list str :=
  match s with
  | [] => []
  | c :: s' =>
      if islinebreak c then
        [] :: match s' with
              | c' :: s'' =>
                  if ((c =? 13) && (c' =? 10))%N then splitlines s''
                  else splitlines s'
              | [] => []
              end
      else
        match splitlines s' with
        | [] => [[c]]
        | l :: ls => (c :: l) :: ls
        end
  end.

(** [sep] is a prefix of [s]. *)
Fixpoint startswith (sep s : str) : bool :=
  match sep, s with
  | [], _ => true
  | x :: sep', y :: s' => N.eqb x y && startswith sep' s'
  | _ :: _, [] => false
  end.

(** [s.split(sep)] for a non-empty [sep]: the pieces of [s] between the
    occurrences of [sep], found from left to right without overlap.
    [skip] counts the characters of a matched separator still to pass. *)
Fixpoint split_from (sep : str) (skip : nat) (s : str) : list str :=
  match s with
  | [] => [[]]
  | c :: s' =>
      match skip with
      | S k => split_from sep k s'
      | O =>
          if startswith sep s then [] :: split_from sep (length sep - 1) s'
          else
            match split_from sep 0 s' with
            | [] => [[c]]
            | p :: ps => (c :: p) :: ps
            end
      end
  end.

Definition split (sep s : str) : list str := split_from sep 0 s.

(** An exception object; [str(e)] is its message.  These are the errors a
    call can raise, all of which derive from Python's [Exception].  The
    signals that end the interpreter (KeyboardInterrupt, SystemExit) are no
    result of a call and are not modelled. *)
Inductive exn : Type := Exception (message : str).

Definition str_of_exn (e : exn) : str :=
  match e with Exception m => m end.

(** The result of running Python code that may raise. *)
Inductive outcome (A : Type) : Type :=
| Return (a : A)
| Raise (e : exn).
Arguments Return {A} a.
Arguments Raise {A} e.

Definition bind {A B} (m : outcome A) (k : A -> outcome B) : outcome B :=
  match m with
  | Return a => k a
  | Raise e => Raise e
  end.

(** [try: body  except Exception as e: handler(e)]. *)
Definition try_except {A} (body : outcome A) (handler : exn -> outcome A)
  : outcome A :=
  match body with
  | Return a => Return a
  | Raise e => handler e
  end.

(** Strict UTF-8 decoding, the codec behind [str(b, "utf-8")]: [None] when
    the bytes are not well-formed UTF-8. *)
Definition cont (b : N) : bool := ((128 <=? b) && (b <=? 191))%N.
Definition low6 (b : N) : N := N.land b 63.

Fixpoint utf8_decode (bs : list N) : option str :=
  match bs with
  | [] => Some []
  | b0 :: r0 =>
      if (b0 <? 128)%N then option_map (cons b0) (utf8_decode r0)
      else
        match r0 with
        | [] => None
        | b1 :: r1 =>
            if ((194 <=? b0) && (b0 <=? 223))%N then
              if cont b1 then
                option_map (cons (N.shiftl (N.land b0 31) 6 + low6 b1)%N)
                           (utf8_decode r1)
              else None
            else
              match r1 with
              | [] => None
              | b2 :: r2 =>
                  if ((224 <=? b0) && (b0 <=? 239))%N then
                    if ((if (b0 =? 224)%N then (160 <=? b1)%N
                         else if (b0 =? 237)%N then (b1 <=? 159)%N
                         else true)
                        && cont b1 && cont b2)%bool
                    then
                      option_map
                        (cons (N.shiftl (N.land b0 15) 12
                               + N.shiftl (low6 b1) 6 + low6 b2)%N)
                        (utf8_decode r2)
                    else None
                  else
                    match r2 with
                    | [] => None
                    | b3 :: r3 =>
                        if ((240 <=? b0) && (b0 <=? 244))%N then
                          if ((if (b0 =? 240)%N then (144 <=? b1)%N
                               else if (b0 =? 244)%N then (b1 <=? 143)%N
                               else true)
                              && cont b1 && cont b2 && cont b3)%bool
                          then
                            option_map
                              (cons (N.shiftl (N.land b0 7) 18
                                     + N.shiftl (low6 b1) 12
                                     + N.shiftl (low6 b2) 6 + low6 b3)%N)
                              (utf8_decode r3)
                          else None
                        else None
                    end
              end
        end
  end.

End Py.

Import Py.

Declare Scope py_scope.
Delimit Scope py_scope with py.
Notation "x <- m ;; k" := (bind m (fun x => k))
  (at level 61, m at next level, right associativity) : py_scope.
Notation "m ;;; k" := (bind m (fun _ => k))
  (at level 61, right associativity) : py_scope.
Open Scope py_scope.

(** ** The parse tree of BeautifulSoup *)

Module Bs4.

(** The class of a string object of the tree.  [Plain] is [NavigableString]
    itself; the others are its subclasses.  The parser gives a string the
    class of the innermost element around it that holds a special kind of
    string: [Script] inside [script], [Stylesheet] inside [style],
    [TemplateString] inside [template], [RubyTextString] inside [rt] and
    [RubyParenthesisString] inside [rp]. *)
Inductive string_class : Type :=
| Plain
| CData
| Comment
| Declaration
| Doctype
| ProcessingInstruction
| Script
| Stylesheet
| TemplateString
| RubyTextString
| RubyParenthesisString.

(** A node of the tree: a string object or an element.  [id] is the
    identity of the element object: [decompose] acts on one object, not on
    every element that looks like it. *)
#[local] Unset Elimination Schemes.
Inductive node : Type :=
| NavigableString (class : string_class) (s : str)
| Tag (id : nat) (name : str) (contents : list node).
#[local] Set Elimination Schemes.

(** Induction over a tree: an element may assume the property of all the
    nodes it contains. *)
Fixpoint node_induction (P : node -> Prop)
         (Hstring : forall class s, P (NavigableString class s))
         (Htag : forall i name contents,
             Forall P contents -> P (Tag i name contents))
         (n : node) {struct n} : P n :=
  match n with
  | NavigableString class s => Hstring class s
  | Tag i name contents =>
      Htag i name contents
           ((fix all (l : list node) : Forall P l :=
               match l with
               | [] => Forall_nil P
               | c :: l' =>
                   Forall_cons c (node_induction P Hstring Htag c) (all l')
               end) contents)
  end.

(** The document: the top-level nodes of the [BeautifulSoup] object. *)
Definition soup := list node.

Definition name_in (name : str) (names : list str) : bool :=
  existsb (str_eqb name) names.

(** [soup(names)], that is [soup.find_all(names)]: every element below the
    document whose name is one of [names], in document order. *)
Fixpoint find_all_node (names : list str) (n : node) : list nat :=
  match n with
  | Tag i name contents =>
      (if name_in name names then [i] else [])
        ++ flat_map (find_all_node names) contents
  | _ => []
  end.

Definition find_all (names : list str) (s : soup) : list nat :=
  flat_map (find_all_node names) s.

Definition is_element (gone : nat -> bool) (n : node) : bool :=
  match n with Tag i _ _ => gone i | _ => false end.

(** The tree without the elements chosen by [gone] (and all they contain). *)
Fixpoint detach_node (gone : nat -> bool) (n : node) : node :=
  match n with
  | Tag i name contents =>
      Tag i name
        ((fix detach_list (l : list node) : list node :=
            match l with
            | [] => []
            | c :: l' =>
                if is_element gone c then detach_list l'
                else detach_node gone c :: detach_list l'
            end) contents)
  | _ => n
  end.

Fixpoint detach (gone : nat -> bool) (l : soup) : soup :=
  match l with
  | [] => []
  | c :: l' =>
      if is_element gone c then detach gone l'
      else detach_node gone c :: detach gone l'
  end.

(** [element.decompose()], seen from the document: the element leaves the
    tree with everything below it.  An element that already left the tree
    (because an element around it was decomposed) changes nothing. *)
Definition decompose (element : nat) (s : soup) : soup :=
  detach (Nat.eqb element) s.

(** The string classes [get_text] counts as text when it is called on the
    document: a string whose class is exactly [NavigableString] or [CData]. *)
Definition interesting_string (class : string_class) : bool :=
  match class with
  | Plain | CData => true
  | _ => false
  end.

(** [soup.get_text()]: the strings of the tree whose class is exactly
    [NavigableString] or [CData], in document order, joined with nothing
    between them.  Comments and the strings of [script], [style],
    [template], [rt] and [rp] are of other classes and are not text. *)
Fixpoint get_text_node (n : node) : str :=
  match n with
  | NavigableString class s => if interesting_string class then s else []
  | Tag _ _ contents => flat_map get_text_node contents
  end.

Definition get_text (s : soup) : str := flat_map get_text_node s.

(** The elements of the tree, each with its identity and its name. *)
Fixpoint tags_node (n : node) : list (nat * str) :=
  match n with
  | Tag i name contents => (i, name) :: flat_map tags_node contents
  | _ => []
  end.

Definition tags (s : soup) : list (nat * str) := flat_map tags_node s.

(** [gone] picks, among the elements listed, exactly those named in [names]. *)
Definition picks_named (names : list str) (gone : nat -> bool)
           (l : list (nat * str)) : Prop :=
  forall i name, In (i, name) l -> gone i = name_in name names.

(** Distinct element objects have distinct identities. *)
Definition distinct_elements (s : soup) : Prop := NoDup (map fst (tags s)).

(** The strings of the tree that are text and do not lie inside an element
    named in [names], in document order. *)
Fixpoint text_outside_node (names : list str) (n : node) : str :=
  match n with
  | NavigableString class s => if interesting_string class then s else []
  | Tag _ name contents =>
      if name_in name names then []
      else flat_map (text_outside_node names) contents
  end.

Definition text_outside (names : list str) (s : soup) : str :=
  flat_map (text_outside_node names) s.

End Bs4.

Import Bs4.

(** ** The outside world *)

(** What [requests.get] returns. *)
Record response : Type := { status_code : N; text : str }.

(** What [st.file_uploader] returns: the declared media type and the bytes. *)
Record UploadedFile : Type := { type : str; read : list byte }.

(** The libraries the script calls.  Their code is not part of the script;
    each call either returns or raises. *)
Record World : Type := {
  page : Type;
  dataframe : Type;
  (** [requests.get(url, headers=headers)] *)
  requests_get : str -> outcome response;
  (** the text of the [HTTPError] that [raise_for_status] raises *)
  http_error_text : response -> str;
  (** [BeautifulSoup(markup, 'html.parser')]: the tree of the markup.  A
      run of text between two tags is one string; when it holds ASCII
      whitespace only the parser stores it as one line feed or one space. *)
  html_parser : str -> outcome soup;
  (** the text of the [UnicodeDecodeError] of the utf-8 codec *)
  unicode_error_text : list byte -> str;
  (** [PyPDF2.PdfReader(uploaded_file)] followed by [reader.pages] *)
  PdfReader : UploadedFile -> outcome (list page);
  (** [page.extract_text()] *)
  extract_text : page -> outcome str;
  (** [pd.read_csv(uploaded_file)] and [pd.read_excel(uploaded_file)] *)
  read_csv : UploadedFile -> outcome dataframe;
  read_excel : UploadedFile -> outcome dataframe;
  (** [df.to_string()] *)
  to_string : dataframe -> outcome str;
  (** [multimodal_Agent.run(prompt).content] *)
  agent_run : str -> outcome str
}.

(** ** The script *)

Section App.

Variable W : World.

(** What every extractor returns: the pair [(text, error)]. *)
Definition result : Type := (option str * option str)%type.

(** [response.raise_for_status()]: raises for a status from 400 to 599. *)
Definition raise_for_status (r : response) : outcome unit :=
  if ((400 <=? status_code r) && (status_code r <? 600))%N
  then Raise (Exception (http_error_text W r))
  else Return tt.

(** Line 89-90: [for script in soup(["script", "style"]): script.decompose()].
    The list of elements is computed first; then each is decomposed. *)
Definition decompose_scripts (s : soup) : soup :=
  fold_left (fun tree script => decompose script tree)
            (find_all [lit "script"; lit "style"] s) s.

(** Line 91: [' '.join(chunk.strip() for line in t.splitlines()
                       for chunk in line.split("  ") if chunk)]. *)
Definition chunks (t : str) : list str :=
  flat_map (fun line => map strip (filter truthy (split (lit "  ") line)))
           (splitlines t).

Definition collapse (t : str) : str := join (lit " ") (chunks t).

(** Lines 85-91: the [try] block of [fetch_webpage_content]. *)
Definition webpage_text (url : str) : outcome str :=
  response <- requests_get W url ;;
  raise_for_status response ;;;
  soup <- html_parser W (text response) ;;
  Return (collapse (get_text (decompose_scripts soup))).

(** Lines 83-94. *)
Definition fetch_webpage_content (url : str) : outcome result :=
  try_except
    (text <- webpage_text url ;;
     Return (Some text, None))
    (fun e =>
       Return (None, Some (lit "Error fetching content: " ++ str_of_exn e))).

(** Lines 100-101: [for page in reader.pages:
                      text += page.extract_text() + newline]. *)
Fixpoint pdf_pages (pages : list (page W)) (text : str) : outcome str :=
  match pages with
  | [] => Return text
  | p :: rest =>
      t <- extract_text W p ;;
      pdf_pages rest (text ++ t ++ [10%N])
  end.

(** Lines 98-101: the [try] block of [extract_text_from_pdf]. *)
Definition pdf_text (uploaded_file : UploadedFile) : outcome str :=
  pages <- PdfReader W uploaded_file ;;
  pdf_pages pages [].

(** Lines 96-104. *)
Definition extract_text_from_pdf (uploaded_file : UploadedFile)
  : outcome result :=
  try_except
    (text <- pdf_text uploaded_file ;;
     Return (Some text, None))
    (fun e =>
       Return (None, Some (lit "Error processing PDF: " ++ str_of_exn e))).

(** [str(b, "utf-8")]. *)
Definition decode_utf8 (b : list byte) : outcome str :=
  match utf8_decode (map Byte.to_N b) with
  | Some s => Return s
  | None => Raise (Exception (unicode_error_text W b))
  end.

(** Line 108: [str(uploaded_file.read(), "utf-8")]. *)
Definition txt_text (uploaded_file : UploadedFile) : outcome str :=
  decode_utf8 (read uploaded_file).

(** Lines 106-110. *)
Definition extract_text_from_txt (uploaded_file : UploadedFile)
  : outcome result :=
  try_except
    (text <- txt_text uploaded_file ;;
     Return (Some text, None))
    (fun e =>
       Return (None,
               Some (lit "Error processing text file: " ++ str_of_exn e))).

(** Lines 114-115: [pd.read_csv(uploaded_file).to_string()]. *)
Definition csv_text (uploaded_file : UploadedFile) : outcome str :=
  df <- read_csv W uploaded_file ;;
  to_string W df.

(** Lines 112-117. *)
Definition extract_text_from_csv (uploaded_file : UploadedFile)
  : outcome result :=
  try_except
    (text <- csv_text uploaded_file ;;
     Return (Some text, None))
    (fun e =>
       Return (None,
               Some (lit "Error processing CSV file: " ++ str_of_exn e))).

(** Lines 121-122: [pd.read_excel(uploaded_file).to_string()]. *)
Definition excel_text (uploaded_file : UploadedFile) : outcome str :=
  df <- read_excel W uploaded_file ;;
  to_string W df.

(** Lines 119-124. *)
Definition extract_text_from_excel (uploaded_file : UploadedFile)
  : outcome result :=
  try_except
    (text <- excel_text uploaded_file ;;
     Return (Some text, None))
    (fun e =>
       Return (None,
               Some (lit "Error processing Excel file: " ++ str_of_exn e))).

(** The radio button of lines 156-160. *)
Inductive source_kind : Type := WebsiteURL | UploadFile.

(** The widget values one re-run of the script reads. *)
Record widgets : Type := {
  input_type : source_kind;
  url : str;
  uploaded_file : option UploadedFile;
  user_query : str;
  (** whether the user pressed the analyze button *)
  analyze_clicked : bool
}.

(** Lines 162-190: [data_content] and [error_message] start as [None] and
    are assigned by the extractor of the chosen source, if any. *)
Definition dispatch (w : widgets) : outcome result :=
  match input_type w with
  | WebsiteURL =>
      if truthy (url w) then fetch_webpage_content (url w)
      else Return (None, None)
  | UploadFile =>
      match uploaded_file w with
      | Some f =>
          if str_eqb (type f) (lit "application/pdf")
          then extract_text_from_pdf f
          else if str_eqb (type f) (lit "text/plain")
          then extract_text_from_txt f
          else if str_eqb (type f) (lit "text/csv")
          then extract_text_from_csv f
          else if name_in (type f)
                    [lit "application/vnd.ms-excel";
                     lit "application/vnd.openxmlformats-officedocument.spreadsheetml.sheet"]
          then extract_text_from_excel f
          else Return (None, None)
      | None => Return (None, None)
      end
  end.

(** Lines 211-220: the f-string. *)
Definition analysis_prompt (user_query data_content : str) : str :=
  lit "
                Analyze the following content and answer the user's question:
                
                User Query: " ++ user_query ++ lit "
                
                Content:
                " ++ slice_to 8000 data_content ++ lit "
                
                Provide a structured and detailed response.
                ".

(** The observable steps of one re-run of the script, in the order of the
    source lines. *)
Inductive event : Type :=
| ShowError (error_message : str)   (* line 194 *)
| ShowSuccess                       (* line 198 *)
| QueryInput                        (* line 200: the text area *)
| AnalyzeButton                     (* line 206: the button *)
| ShowWarning                       (* line 208 *)
| ComposePrompt (prompt : str)      (* line 211 *)
| AgentRun (prompt : str)           (* line 221 *)
| ShowResults (content : str)       (* lines 223-225 *)
| Unhandled (e : exn).              (* an exception ends the run *)

(** Lines 206-225: the body of [if st.button(...)]. *)
Definition analyze (user_query data_content : str) : list event :=
  if negb (truthy user_query) then [ShowWarning]
  else
    let prompt := analysis_prompt user_query data_content in
    ComposePrompt prompt :: AgentRun prompt ::
      match agent_run W prompt with
      | Return content => [ShowResults content]
      | Raise e => [Unhandled e]
      end.

(** Lines 162-225: one render cycle. *)
Definition render (w : widgets) : list event :=
  match dispatch w with
  | Raise e => [Unhandled e]
  | Return (data_content, error_message) =>
      (match error_message with
       | Some m => if truthy m then [ShowError m] else []
       | None => []
       end)
      ++
      (match data_content with
       | Some c =>
           if truthy c then
             ShowSuccess :: QueryInput :: AnalyzeButton ::
               (if analyze_clicked w then analyze (user_query w) c else [])
           else []
       | None => []
       end)
  end.

End App.

(** ** Vocabulary of the specification *)

(** An exception raised inside [body] is caught by the extractor and turned
    into the pair of no text and a message that begins with [label]; the
    extractor itself returns. *)
Definition converts (label : str) (body : outcome str) (r : outcome result)
  : Prop :=
  (exists pair, r = Return pair) /\
  (forall e, body = Raise e ->
             r = Return (None, Some (label ++ str_of_exn e))).

(** Exactly one component of the pair is not [None]. *)
Definition exactly_one (r : result) : Prop :=
  match r with
  | (Some _, None) => True
  | (None, Some _) => True
  | _ => False
  end.

(** The pair an attempt yields: the text of the [try] block and no error
    when the block returns, no text and a message when it raises. *)
Definition attempt_result (label : str) (body : outcome str) (r : result)
  : Prop :=
  exactly_one r /\
  (forall t, body = Return t -> r = (Some t, None)) /\
  (forall e, body = Raise e -> r = (None, Some (label ++ str_of_exn e))).

(** The conditions of lines 168, 181 and 183-189 under which the dispatch
    calls an extractor. *)
Definition handled (media_type : str) : bool :=
  str_eqb media_type (lit "application/pdf")
  || str_eqb media_type (lit "text/plain")
  || str_eqb media_type (lit "text/csv")
  || name_in media_type
       [lit "application/vnd.ms-excel";
        lit "application/vnd.openxmlformats-officedocument.spreadsheetml.sheet"].

Definition attempts (w : widgets) : bool :=
  match input_type w with
  | WebsiteURL => truthy (url w)
  | UploadFile =>
      match uploaded_file w with
      | Some f => handled (type f)
      | None => false
      end
  end.

(** The run composed no prompt and called no agent. *)
Definition agent_untouched (trace : list event) : Prop :=
  forall p, ~ In (ComposePrompt p) trace /\ ~ In (AgentRun p) trace.

(** The error banner and the success banner both appear in the run. *)
Definition both_banners (trace : list event) : Prop :=
  (exists m, In (ShowError m) trace) /\ In ShowSuccess trace.

(** The three fixed parts of the f-string of lines 211-220. *)
Definition prompt_head : str := lit "
                Analyze the following content and answer the user's question:
                
                User Query: ".

Definition prompt_middle : str := lit "
                
                Content:
                ".

Definition prompt_tail : str := lit "
                
                Provide a structured and detailed response.
                ".

(** The page texts with a newline between consecutive ones, as the
    specification words the result of the PDF extractor. *)
Definition pages_joined (texts : list str) : str := join [10%N] texts.

(** The page texts, each followed by a newline. *)
Definition pages_terminated (texts : list str) : str :=
  concat (map (fun t => t ++ [10%N]) texts).


(** [sep] occurs in [p]. *)
Definition occurs (sep p : str) : Prop := exists a b, p = a ++ sep ++ b.



Definition no_linebreak (t : str) : bool :=
  forallb (fun c => negb (islinebreak c)) t.

Fixpoint adjacent_spaces (t : str) : bool :=
  match t with
  | c :: t' =>
      match t' with
      | c' :: _ => (c =? 32)%N && (c' =? 32)%N || adjacent_spaces t'
      | [] => false
      end
  | [] => false
  end.


(** ** Worlds and inputs used in the examples *)

(** No network, no readable document, no agent. *)
Definition offline : World := {|
  page := unit;
  dataframe := unit;
  requests_get := fun _ => Raise (Exception (lit "Connection refused"));
  http_error_text := fun _ => lit "HTTP error";
  html_parser := fun _ => Return [];
  unicode_error_text := fun _ => lit "invalid start byte";
  PdfReader := fun _ => Raise (Exception (lit "EOF marker not found"));
  extract_text := fun _ => Return [];
  read_csv := fun _ => Raise (Exception (lit "No columns to parse from file"));
  read_excel := fun _ => Raise (Exception (lit "File is not a zip file"));
  to_string := fun _ => Return [];
  agent_run := fun _ => Raise (Exception (lit "API key not valid"))
|}.

Definition upload (media_type : string) (content : list byte)
           (query : string) (clicked : bool) : widgets := {|
  input_type := UploadFile;
  url := [];
  uploaded_file := Some {| type := lit media_type; read := content |};
  user_query := lit query;
  analyze_clicked := clicked
|}.

Definition browse (address : string) (query : string) (clicked : bool)
  : widgets := {|
  input_type := WebsiteURL;
  url := lit address;
  uploaded_file := None;
  user_query := lit query;
  analyze_clicked := clicked
|}.

(** A document whose pages carry the given texts. *)
Definition pdf_world (texts : list str) : World := {|
  page := str;
  dataframe := unit;
  requests_get := fun _ => Raise (Exception (lit "Connection refused"));
  http_error_text := fun _ => lit "HTTP error";
  html_parser := fun _ => Return [];
  unicode_error_text := fun _ => lit "invalid start byte";
  PdfReader := fun _ => Return texts;
  extract_text := fun p => Return p;
  read_csv := fun _ => Raise (Exception (lit "No columns to parse from file"));
  read_excel := fun _ => Raise (Exception (lit "File is not a zip file"));
  to_string := fun _ => Return [];
  agent_run := fun _ => Raise (Exception (lit "API key not valid"))
|}.

Definition some_pdf : UploadedFile :=
  {| type := lit "application/pdf"; read := list_byte_of_string "%PDF-1.4" |}.

(** A site that answers 200 with [html], which the parser reads as [tree]. *)
Definition web_world (html : str) (tree : soup) : World := {|
  page := unit;
  dataframe := unit;
  requests_get := fun _ => Return {| status_code := 200; text := html |};
  http_error_text := fun _ => lit "HTTP error";
  html_parser := fun _ => Return tree;
  unicode_error_text := fun _ => lit "invalid start byte";
  PdfReader := fun _ => Raise (Exception (lit "EOF marker not found"));
  extract_text := fun _ => Return [];
  read_csv := fun _ => Raise (Exception (lit "No columns to parse from file"));
  read_excel := fun _ => Raise (Exception (lit "File is not a zip file"));
  to_string := fun _ => Return [];
  agent_run := fun _ => Raise (Exception (lit "API key not valid"))
|}.

Definition styled_page : str :=
  lit "<html><head><style>p{color:red}</style><script>var x=1;</script></head><body><p>Hello</p><p>world</p></body></html>".

Definition styled_tree : soup :=
  [Tag 0 (lit "html")
     [Tag 1 (lit "head")
        [Tag 2 (lit "style") [NavigableString Stylesheet (lit "p{color:red}")];
         Tag 3 (lit "script") [NavigableString Script (lit "var x=1;")]];
      Tag 4 (lit "body")
        [Tag 5 (lit "p") [NavigableString Plain (lit "Hello")];
         Tag 6 (lit "p") [NavigableString Plain (lit "world")]]]].



(** ** Further vocabulary *)

(** The characters of a text that are not whitespace, in order. *)
Definition visible (t : str) : str := filter (fun c => negb (isspace c)) t.

Definition is_agent_run (e : event) : bool :=
  match e with AgentRun _ => true | _ => false end.

(** A byte that cannot begin a UTF-8 sequence: a continuation byte, an
    overlong lead (192, 193) or a lead beyond the Unicode range. *)
Definition bad_start (b : N) : bool :=
  ((128 <=? b) && (b <=? 193) || (245 <=? b))%N.

(** An agent that gives [answer] to every prompt. *)
Definition chat_world (answer : outcome str) : World := {|
  page := unit;
  dataframe := unit;
  requests_get := fun _ => Raise (Exception (lit "Connection refused"));
  http_error_text := fun _ => lit "HTTP error";
  html_parser := fun _ => Return [];
  unicode_error_text := fun _ => lit "invalid start byte";
  PdfReader := fun _ => Raise (Exception (lit "EOF marker not found"));
  extract_text := fun _ => Return [];
  read_csv := fun _ => Raise (Exception (lit "No columns to parse from file"));
  read_excel := fun _ => Raise (Exception (lit "File is not a zip file"));
  to_string := fun _ => Return [];
  agent_run := fun _ => answer
|}.

(** A site that answers with the given status. *)
Definition status_world (status : N) (html : str) (tree : soup) : World := {|
  page := unit;
  dataframe := unit;
  requests_get := fun _ => Return {| status_code := status; text := html |};
  http_error_text := fun _ => lit "404 Client Error: Not Found";
  html_parser := fun _ => Return tree;
  unicode_error_text := fun _ => lit "invalid start byte";
  PdfReader := fun _ => Raise (Exception (lit "EOF marker not found"));
  extract_text := fun _ => Return [];
  read_csv := fun _ => Raise (Exception (lit "No columns to parse from file"));
  read_excel := fun _ => Raise (Exception (lit "File is not a zip file"));
  to_string := fun _ => Return [];
  agent_run := fun _ => Raise (Exception (lit "API key not valid"))
|}.

(** A document whose pages yield their text, or fail when they have none to
    give. *)
Definition scanned_world (pages : list (option str)) : World := {|
  page := option str;
  dataframe := unit;
  requests_get := fun _ => Raise (Exception (lit "Connection refused"));
  http_error_text := fun _ => lit "HTTP error";
  html_parser := fun _ => Return [];
  unicode_error_text := fun _ => lit "invalid start byte";
  PdfReader := fun _ => Return pages;
  extract_text := fun p =>
    match p with
    | Some t => Return t
    | None => Raise (Exception (lit "cannot read page"))
    end;
  read_csv := fun _ => Raise (Exception (lit "No columns to parse from file"));
  read_excel := fun _ => Raise (Exception (lit "File is not a zip file"));
  to_string := fun _ => Return [];
  agent_run := fun _ => Raise (Exception (lit "API key not valid"))
|}.

(** ** The extractors *)

Section Extractors.

Variable W : World.

Lemma guarded_returns (label : str) (body : outcome str) :
  exists pair,
    try_except (text <- body ;; Return (Some text, None))
               (fun e => Return (None, Some (label ++ str_of_exn e)))
    = Return pair
    /\ attempt_result label body pair.
Proof.
  destruct body as [t | e]; simpl.
  - exists (Some t, None). split; [reflexivity|].
    split; [exact I|]. split; intros x Hx; now inversion Hx.
  - exists (None, Some (label ++ str_of_exn e)). split; [reflexivity|].
    split; [exact I|]. split; intros x Hx; now inversion Hx.
Qed.

Lemma guarded_converts (label : str) (body : outcome str) :
  converts label body
    (try_except (text <- body ;; Return (Some text, None))
                (fun e => Return (None, Some (label ++ str_of_exn e)))).
Proof.
  destruct (guarded_returns label body) as (pair & Hr & _ & _ & Hfail).
  split.
  - now exists pair.
  - intros e He. rewrite Hr. f_equal. now apply Hfail.
Qed.

End Extractors.

(** C2. Whatever URL or file they are given, and whatever the libraries do,
    the five extractors return to their caller: an exception raised inside
    the [try] block is caught and becomes the pair of no text and a message
    that names the failed step and carries the text of the exception. *)
Theorem extractors_never_raise (W : World) (url : str) (f : UploadedFile) :
  converts (lit "Error fetching content: ")
           (webpage_text W url) (fetch_webpage_content W url)
  /\ converts (lit "Error processing PDF: ")
              (pdf_text W f) (extract_text_from_pdf W f)
  /\ converts (lit "Error processing text file: ")
              (txt_text W f) (extract_text_from_txt W f)
  /\ converts (lit "Error processing CSV file: ")
              (csv_text W f) (extract_text_from_csv W f)
  /\ converts (lit "Error processing Excel file: ")
              (excel_text W f) (extract_text_from_excel W f).
Proof.
  repeat split; try apply guarded_converts;
    intros e He; apply guarded_converts; exact He.
Qed.

Lemma extractor_pairs (W : World) (url : str) (f : UploadedFile) :
  (exists r, fetch_webpage_content W url = Return r
             /\ attempt_result (lit "Error fetching content: ")
                               (webpage_text W url) r)
  /\ (exists r, extract_text_from_pdf W f = Return r
                /\ attempt_result (lit "Error processing PDF: ")
                                  (pdf_text W f) r)
  /\ (exists r, extract_text_from_txt W f = Return r
                /\ attempt_result (lit "Error processing text file: ")
                                  (txt_text W f) r)
  /\ (exists r, extract_text_from_csv W f = Return r
                /\ attempt_result (lit "Error processing CSV file: ")
                                  (csv_text W f) r)
  /\ (exists r, extract_text_from_excel W f = Return r
                /\ attempt_result (lit "Error processing Excel file: ")
                                  (excel_text W f) r).
Proof.
  repeat apply conj; apply guarded_returns.
Qed.

(** ** The render cycle *)

Section Render.

Variable W : World.

Lemma str_eqb_eq (a b : str) : str_eqb a b = true <-> a = b.
Proof.
  revert b; induction a as [|x a IH]; intros [|y b]; simpl;
    try (split; [discriminate | discriminate]); [tauto|].
  rewrite andb_true_iff, N.eqb_eq, IH.
  split; [intros [-> ->]; reflexivity | intros H; inversion H; auto].
Qed.

(** The dispatch never raises; the pair it leaves in [data_content] and
    [error_message] is the pair of an attempt when an extractor was called
    and the untouched pair otherwise. *)
Lemma dispatch_returns (w : widgets) :
  exists r, dispatch W w = Return r
            /\ (if attempts w then exactly_one r else r = (None, None)).
Proof.
  pose proof (extractor_pairs W (url w)) as E.
  unfold dispatch, attempts, handled.
  destruct (input_type w).
  - destruct (truthy (url w)).
    + destruct (E {| type := []; read := [] |})
        as ((r & Hr & Hx & _) & _).
      exists r; auto.
    + exists (None, None); auto.
  - destruct (uploaded_file w) as [f|]; [|exists (None, None); auto].
    destruct (E f) as (_ & (r1 & H1 & X1 & _) & (r2 & H2 & X2 & _)
                         & (r3 & H3 & X3 & _) & (r4 & H4 & X4 & _)).
    destruct (str_eqb (type f) (lit "application/pdf")); [now exists r1|].
    destruct (str_eqb (type f) (lit "text/plain")); [now exists r2|].
    destruct (str_eqb (type f) (lit "text/csv")); [now exists r3|].
    unfold name_in. simpl.
    destruct (str_eqb (type f) (lit "application/vnd.ms-excel") || _).
    + exists r4. split; [exact H4 | exact X4].
    + exists (None, None). split; reflexivity.
Qed.

Lemma dispatch_shape (w : widgets) :
  exists r, dispatch W w = Return r
            /\ (r = (None, None) \/ exactly_one r).
Proof.
  destruct (dispatch_returns w) as (r & Hr & H).
  exists r. split; [exact Hr|]. destruct (attempts w); auto.
Qed.

Lemma analyze_empty_query (c : str) : analyze W [] c = [ShowWarning].
Proof. reflexivity. Qed.

(** The shape of a run, by the pair the dispatch left. *)
Lemma render_no_content (w : widgets) (error_message : option str) :
  dispatch W w = Return (None, error_message) ->
  agent_untouched (render W w) /\ ~ In ShowSuccess (render W w)
  /\ ~ In QueryInput (render W w) /\ ~ In AnalyzeButton (render W w).
Proof.
  intros H. unfold render, agent_untouched. rewrite H.
  rewrite app_nil_r.
  destruct error_message as [m|]; [destruct (truthy m)|]; simpl;
    (split; [intros p|]); intuition discriminate.
Qed.

Lemma render_content_only (w : widgets) (c : str) :
  dispatch W w = Return (Some c, None) ->
  forall m, ~ In (ShowError m) (render W w).
Proof.
  intros H m. unfold render. rewrite H. simpl.
  destruct (truthy c); simpl; [|tauto].
  intros [Hin|[Hin|[Hin|Hin]]]; try discriminate Hin.
  destruct (analyze_clicked w); [|exact Hin].
  unfold analyze in Hin.
  destruct (negb (truthy (user_query w))); simpl in Hin.
  - destruct Hin as [Hin|[]]; discriminate Hin.
  - destruct Hin as [Hin|[Hin|Hin]]; try discriminate Hin.
    destruct (agent_run W _); destruct Hin as [Hin|[]]; discriminate Hin.
Qed.

End Render.

(** C3. Every extraction attempt returns a pair with exactly one component
    set: the text and no error when the [try] block returned, no text and a
    message when it raised; never both and never neither.  This holds of
    each of the five extractors and of the pair that the dispatch leaves in
    [data_content] and [error_message] whenever it calls one. *)
Theorem extraction_exactly_one (W : World) (url : str) (f : UploadedFile) :
  (exists r, fetch_webpage_content W url = Return r
             /\ attempt_result (lit "Error fetching content: ")
                               (webpage_text W url) r)
  /\ (exists r, extract_text_from_pdf W f = Return r
                /\ attempt_result (lit "Error processing PDF: ")
                                  (pdf_text W f) r)
  /\ (exists r, extract_text_from_txt W f = Return r
                /\ attempt_result (lit "Error processing text file: ")
                                  (txt_text W f) r)
  /\ (exists r, extract_text_from_csv W f = Return r
                /\ attempt_result (lit "Error processing CSV file: ")
                                  (csv_text W f) r)
  /\ (exists r, extract_text_from_excel W f = Return r
                /\ attempt_result (lit "Error processing Excel file: ")
                                  (excel_text W f) r)
  /\ (forall w, attempts w = true ->
                exists r, dispatch W w = Return r /\ exactly_one r).
Proof.
  pose proof (extractor_pairs W url f) as (H1 & H2 & H3 & H4 & H5).
  repeat (split; [assumption|]).
  intros w Hw. destruct (dispatch_returns W w) as (r & Hr & H).
  rewrite Hw in H. now exists r.
Qed.

Lemma extraction_exactly_one_witness :
  let w := upload "text/csv" (list_byte_of_string "a,b") "" false in
  attempts w = true
  /\ dispatch offline w
     = Return (None, Some (lit "Error processing CSV file: No columns to parse from file")).
Proof.
  intros w. split; [reflexivity|].
  destruct (extraction_exactly_one offline [] {| type := []; read := [] |})
    as (_ & _ & _ & _ & _ & H).
  destruct (H w eq_refl) as (r & Hr & _).
  reflexivity.
Defined.

(** C1. In a render cycle whose extraction left an error message, no prompt
    is composed and the agent is not run; and in no render cycle do the error
    banner and the success banner both appear. *)
Theorem error_blocks_agent (W : World) (w : widgets) :
  (forall data_content m,
      dispatch W w = Return (data_content, Some m) ->
      agent_untouched (render W w))
  /\ ~ both_banners (render W w).
Proof.
  destruct (dispatch_shape W w) as (r & Hr & Hshape).
  split.
  - intros d m H. rewrite H in Hr. inversion Hr; subst r.
    destruct Hshape as [Hnn | Hone]; [discriminate Hnn|].
    destruct d; [contradiction Hone|].
    now apply render_no_content with (error_message := Some m).
  - intros [[m Herr] Hok].
    destruct r as [[c|] e].
    + destruct e as [e|].
      * destruct Hshape as [Hnn | Hone]; [discriminate Hnn | exact Hone].
      * exact (render_content_only W w c Hr m Herr).
    + destruct (render_no_content W w _ Hr) as (_ & Hno & _). contradiction.
Qed.

Lemma error_blocks_agent_witness :
  dispatch offline (browse "https://example.com" "What is this?" true)
  = Return (None, Some (lit "Error fetching content: Connection refused"))
  /\ agent_untouched
       (render offline (browse "https://example.com" "What is this?" true)).
Proof.
  split; [reflexivity|].
  eapply (proj1 (error_blocks_agent offline _)). reflexivity.
Defined.

(** C5. When the analyze button is pressed while the query is empty, the run
    shows the warning, composes no prompt and does not run the agent. *)
Theorem empty_query_warns (W : World) (w : widgets)
        (Hquery : user_query w = [])
        (Hbutton : In AnalyzeButton (render W w))
        (Hclick : analyze_clicked w = true) :
  In ShowWarning (render W w) /\ agent_untouched (render W w).
Proof.
  destruct (dispatch_shape W w) as ([[c|] e] & Hr & _).
  - revert Hbutton. unfold render, agent_untouched.
    rewrite Hr, Hclick, Hquery, analyze_empty_query.
    destruct e as [m|]; [destruct (truthy m)|]; destruct (truthy c); simpl;
      intros Hb; (split; [|intros p]); intuition discriminate.
  - destruct (render_no_content W w _ Hr) as (_ & _ & _ & Hno).
    contradiction.
Qed.

Lemma empty_query_warns_witness :
  let w := upload "text/plain" (list_byte_of_string "hello") "" true in
  dispatch offline w = Return (Some (lit "hello"), None)
  /\ In ShowWarning (render offline w)
  /\ agent_untouched (render offline w).
Proof.
  intros w. split; [reflexivity|].
  apply (empty_query_warns offline w).
  - reflexivity.
  - vm_compute. auto.
  - reflexivity.
Defined.

(** C9, as the program has it. After an extraction that returned a text and
    no error, the run shows the success banner, the query input and the
    analyze button when the text is not empty; when the text is the empty
    string the run shows nothing. *)
Theorem nonempty_text_unlocks (W : World) (w : widgets) (text : str)
        (H : dispatch W w = Return (Some text, None)) :
  (text <> [] ->
   In ShowSuccess (render W w) /\ In QueryInput (render W w)
   /\ In AnalyzeButton (render W w))
  /\ (text = [] -> render W w = []).
Proof.
  unfold render. rewrite H. split.
  - destruct text; [congruence|]. intros _. simpl. auto 10.
  - intros ->. reflexivity.
Qed.

Lemma nonempty_text_unlocks_witness :
  let w := upload "text/plain" (list_byte_of_string "hello") "" false in
  render offline w = [ShowSuccess; QueryInput; AnalyzeButton]
  /\ In AnalyzeButton (render offline w).
Proof.
  intros w. split; [reflexivity|].
  apply (nonempty_text_unlocks offline w (lit "hello")); [reflexivity|].
  discriminate.
Defined.

(** C9, as stated, fails: uploading an empty text file is an extraction that
    succeeds, with the empty string and no error, and the run shows neither
    the query input nor the analyze button. *)
Lemma empty_text_stays_locked :
  let w := upload "text/plain" [] "" false in
  extract_text_from_txt offline {| type := lit "text/plain"; read := [] |}
  = Return (Some [], None)
  /\ dispatch offline w = Return (Some [], None)
  /\ ~ In QueryInput (render offline w)
  /\ ~ In AnalyzeButton (render offline w).
Proof.
  intros w. repeat split; try reflexivity; vm_compute; tauto.
Qed.

(** C10. An uploaded file whose declared media type is none of the handled
    ones leaves [data_content] and [error_message] as they were set on lines
    162-163: the pair is the result of no extractor, and the run shows no
    error, no success banner, no query input and no analyze button. *)
Theorem unhandled_type_is_silent (W : World) (w : widgets) (f : UploadedFile)
        (Hsource : input_type w = UploadFile)
        (Hfile : uploaded_file w = Some f)
        (Htype : ~ In (type f)
                      [lit "application/pdf"; lit "text/plain"; lit "text/csv";
                       lit "application/vnd.ms-excel";
                       lit "application/vnd.openxmlformats-officedocument.spreadsheetml.sheet"]) :
  attempts w = false
  /\ dispatch W w = Return (None, None)
  /\ render W w = []
  /\ (forall f', extract_text_from_pdf W f' <> Return (None, None)
                 /\ extract_text_from_txt W f' <> Return (None, None)
                 /\ extract_text_from_csv W f' <> Return (None, None)
                 /\ extract_text_from_excel W f' <> Return (None, None)).
Proof.
  assert (Hd : dispatch W w = Return (None, None)).
  { assert (Hne : forall t, In t [lit "application/pdf"; lit "text/plain";
                                  lit "text/csv";
                                  lit "application/vnd.ms-excel";
                                  lit "application/vnd.openxmlformats-officedocument.spreadsheetml.sheet"] ->
                            str_eqb (type f) t = false).
    { intros t Ht. destruct (str_eqb (type f) t) eqn:E; [|reflexivity].
      apply str_eqb_eq in E. subst t. contradiction. }
    unfold dispatch, name_in. rewrite Hsource, Hfile. simpl existsb.
    rewrite !Hne by (simpl; auto 10). reflexivity. }
  split.
  { destruct (dispatch_returns W w) as (r & Hr & H).
    destruct (attempts w); [|reflexivity].
    rewrite Hd in Hr. inversion Hr; subst r. contradiction H. }
  split; [exact Hd|]. split; [unfold render; now rewrite Hd|].
  intros f'.
  destruct (extractor_pairs W [] f')
    as (_ & (r1 & H1 & X1 & _) & (r2 & H2 & X2 & _)
          & (r3 & H3 & X3 & _) & (r4 & H4 & X4 & _)).
  rewrite H1, H2, H3, H4.
  repeat split; intros E; inversion E; subst; contradiction.
Qed.

Lemma unhandled_type_is_silent_witness :
  let w := upload "image/png" (list_byte_of_string "hello") "What?" true in
  dispatch offline w = Return (None, None) /\ render offline w = [].
Proof.
  intros w.
  destruct (unhandled_type_is_silent offline w
              {| type := lit "image/png";
                 read := list_byte_of_string "hello" |})
    as (_ & Hd & Hr & _); auto.
  vm_compute. intuition discriminate.
Defined.

(** ** The prompt *)

Lemma slice_to_length (n : nat) (c : str) :
  n <= length c -> length (slice_to n c) = n.
Proof. intros H. unfold slice_to. rewrite length_firstn. lia. Qed.

Lemma slice_to_cut (n : nat) (c rest : str) :
  n <= length c -> slice_to n (slice_to n c ++ rest) = slice_to n c.
Proof.
  intros H. unfold slice_to.
  rewrite firstn_app, firstn_firstn, length_firstn.
  replace (Nat.min n n) with n by lia.
  replace (n - Nat.min n (length c)) with 0 by lia.
  simpl. apply app_nil_r.
Qed.

(** C4. For a content longer than 8000 characters the prompt is the fixed
    text with the query and exactly the first 8000 characters of the content
    in their places; what the content holds from position 8000 on has no
    influence on the prompt, whatever characters stand at the cut. *)
Theorem prompt_embeds_first_8000 (query content : str)
        (Hlong : length content > 8000) :
  analysis_prompt query content
  = prompt_head ++ query ++ prompt_middle
      ++ firstn 8000 content ++ prompt_tail
  /\ length (firstn 8000 content) = 8000
  /\ content = firstn 8000 content ++ skipn 8000 content
  /\ (forall rest,
        analysis_prompt query (firstn 8000 content ++ rest)
        = analysis_prompt query content).
Proof.
  split; [reflexivity|].
  split; [apply slice_to_length; lia|].
  split; [symmetry; apply firstn_skipn|].
  intros rest. unfold analysis_prompt.
  change (firstn 8000 content) with (slice_to 8000 content).
  rewrite slice_to_cut by lia. reflexivity.
Qed.

Lemma prompt_embeds_first_8000_witness :
  let content := repeat 97%N 8000 ++ lit "tail" in
  analysis_prompt (lit "Why?") content
  = prompt_head ++ lit "Why?" ++ prompt_middle
      ++ repeat 97%N 8000 ++ prompt_tail.
Proof.
  intros content.
  assert (Hlong : length content > 8000).
  { apply Nat.ltb_lt. vm_compute. reflexivity. }
  destruct (prompt_embeds_first_8000 (lit "Why?") content Hlong) as (Heq & _).
  rewrite Heq. vm_compute. reflexivity.
Defined.

(** ** The PDF extractor *)

Lemma pdf_pages_terminated (W : World) (pages : list (page W))
      (texts : list str) (text : str) :
  Forall2 (fun p t => extract_text W p = Return t) pages texts ->
  pdf_pages W pages text = Return (text ++ pages_terminated texts).
Proof.
  intros H. revert text.
  induction H as [|p t pages texts Hp _ IH]; intros text; simpl.
  - now rewrite app_nil_r.
  - rewrite Hp. simpl. rewrite IH. unfold pages_terminated. simpl.
    now rewrite <- !app_assoc.
Qed.

Lemma pages_terminated_joined (texts : list str) :
  texts <> [] -> pages_terminated texts = pages_joined texts ++ [10%N].
Proof.
  unfold pages_terminated, pages_joined.
  induction texts as [|t [|t' rest] IH]; intros Hne; [congruence| |].
  - simpl. now rewrite app_nil_r.
  - change (concat (map (fun t0 => t0 ++ [10%N]) (t :: t' :: rest)))
      with ((t ++ [10%N])
              ++ concat (map (fun t0 => t0 ++ [10%N]) (t' :: rest))).
    rewrite IH by discriminate.
    change (join [10%N] (t :: t' :: rest))
      with (t ++ [10%N] ++ join [10%N] (t' :: rest)).
    now rewrite <- !app_assoc.
Qed.

(** C6, as the program has it. For a document that the reader parses and
    whose pages all yield their text, the PDF extractor returns no error and
    the page texts in page order, each followed by a newline: a newline
    between consecutive page texts and one more after the last. *)
Theorem pdf_text_in_page_order (W : World) (f : UploadedFile)
        (pages : list (page W)) (texts : list str)
        (Hread : PdfReader W f = Return pages)
        (Hpages : Forall2 (fun p t => extract_text W p = Return t)
                          pages texts) :
  extract_text_from_pdf W f = Return (Some (pages_terminated texts), None)
  /\ (texts <> [] -> pages_terminated texts = pages_joined texts ++ [10%N]).
Proof.
  split; [|apply pages_terminated_joined].
  unfold extract_text_from_pdf, pdf_text. rewrite Hread. simpl.
  now rewrite (pdf_pages_terminated W pages texts [] Hpages).
Qed.

Lemma pdf_text_in_page_order_witness :
  extract_text_from_pdf (pdf_world [lit "one"; lit "two"]) some_pdf
  = Return (Some (lit "one" ++ [10%N] ++ lit "two" ++ [10%N]), None).
Proof.
  destruct (pdf_text_in_page_order (pdf_world [lit "one"; lit "two"])
              some_pdf [lit "one"; lit "two"] [lit "one"; lit "two"])
    as (H & _).
  - reflexivity.
  - repeat constructor.
  - exact H.
Defined.

(** C6, as stated, fails: for a document of one page the extractor returns
    the page text followed by a newline, not the page text alone. *)
Lemma single_page_keeps_final_newline :
  extract_text_from_pdf (pdf_world [lit "A"]) some_pdf
  = Return (Some [65%N; 10%N], None)
  /\ pages_joined [lit "A"] = [65%N]
  /\ extract_text_from_pdf (pdf_world [lit "A"]) some_pdf
     <> Return (Some (pages_joined [lit "A"]), None).
Proof.
  repeat split; try reflexivity. vm_compute. discriminate.
Qed.

(** ** The parse tree without its scripts and styles *)

Section Detach.

Lemma detach_node_tag (gone : nat -> bool) (i : nat) (name : str)
      (contents : list node) :
  detach_node gone (Tag i name contents) = Tag i name (detach gone contents).
Proof.
  simpl. f_equal.
  induction contents as [|c l IH]; simpl; [reflexivity|].
  now rewrite IH.
Qed.

Lemma is_element_detach_node (gone gone' : nat -> bool) (n : node) :
  is_element gone (detach_node gone' n) = is_element gone n.
Proof. destruct n; reflexivity. Qed.

(** Detaching twice is detaching the union. *)
Lemma detach_node_twice (first then_ : nat -> bool) (n : node) :
  detach_node then_ (detach_node first n)
  = detach_node (fun i => first i || then_ i) n.
Proof.
  induction n as [k s|i name contents IH] using node_induction;
    try reflexivity.
  rewrite !detach_node_tag. f_equal.
  induction IH as [|c l Hc _ IHl]; simpl; [reflexivity|].
  destruct c as [k s|j nm cs]; simpl in *.
  - now rewrite IHl.
  - destruct (first j); simpl; [exact IHl|].
    destruct (then_ j); simpl; [exact IHl|].
    rewrite <- IHl. f_equal. exact Hc.
Qed.

Lemma detach_twice (first then_ : nat -> bool) (s : soup) :
  detach then_ (detach first s) = detach (fun i => first i || then_ i) s.
Proof.
  pose proof (detach_node_twice first then_ (Tag 0 [] s)) as H.
  rewrite !detach_node_tag in H. injection H as H. exact H.
Qed.

Lemma detach_node_ext (gone gone' : nat -> bool) (n : node) :
  (forall i, gone i = gone' i) -> detach_node gone n = detach_node gone' n.
Proof.
  intros Hext.
  induction n as [k s|i name contents IH] using node_induction;
    try reflexivity.
  rewrite !detach_node_tag. f_equal.
  induction IH as [|c l Hc _ IHl]; simpl; [reflexivity|].
  replace (is_element gone' c) with (is_element gone c)
    by (destruct c; simpl; auto).
  now rewrite IHl, Hc.
Qed.

Lemma detach_ext (gone gone' : nat -> bool) (s : soup) :
  (forall i, gone i = gone' i) -> detach gone s = detach gone' s.
Proof.
  intros Hext.
  pose proof (detach_node_ext gone gone' (Tag 0 [] s) Hext) as H.
  rewrite !detach_node_tag in H. injection H as H. exact H.
Qed.

Lemma detach_nothing (s : soup) : detach (fun _ => false) s = s.
Proof.
  assert (Hn : forall n, detach_node (fun _ => false) n = n).
  { induction n as [k t|i name contents IH] using node_induction;
      try reflexivity.
    rewrite detach_node_tag. f_equal.
    induction IH as [|c l Hc _ IHl]; simpl; [reflexivity|].
    replace (is_element (fun _ => false) c) with false
      by (destruct c; reflexivity).
    now rewrite IHl, Hc. }
  pose proof (Hn (Tag 0 [] s)) as H.
  rewrite detach_node_tag in H. injection H as H. exact H.
Qed.

(** The loop of lines 89-90 detaches exactly the elements it was given. *)
Lemma decompose_each (elements : list nat) (gone : nat -> bool) (s : soup) :
  fold_left (fun tree script => decompose script tree) elements
            (detach gone s)
  = detach (fun i => gone i || existsb (fun e => Nat.eqb e i) elements) s.
Proof.
  revert gone. induction elements as [|e l IH]; intros gone; simpl.
  - apply detach_ext. intros i. now rewrite orb_false_r.
  - unfold decompose at 2. rewrite detach_twice, IH.
    apply detach_ext. intros i. now rewrite orb_assoc.
Qed.

Lemma decompose_scripts_detach (s : soup) :
  decompose_scripts s
  = detach (fun i => existsb (fun e => Nat.eqb e i)
                             (find_all [lit "script"; lit "style"] s)) s.
Proof.
  unfold decompose_scripts.
  rewrite <- (detach_nothing s) at 2.
  now rewrite decompose_each.
Qed.

Lemma detach_cons (gone : nat -> bool) (c : node) (l : soup) :
  detach gone (c :: l) = detach gone [c] ++ detach gone l.
Proof. simpl. now destruct (is_element gone c). Qed.

Variable names : list str.

Lemma picks_named_app (gone : nat -> bool) (l l' : list (nat * str)) :
  picks_named names gone (l ++ l') -> picks_named names gone l /\ picks_named names gone l'.
Proof.
  intros H; split; intros i name Hin; apply H, in_or_app; auto.
Qed.

Lemma get_text_detach_node (gone : nat -> bool) (n : node) :
  picks_named names gone (tags_node n) ->
  get_text (detach gone [n]) = text_outside_node names n.
Proof.
  induction n as [k t|i name contents IH] using node_induction;
    intros Hpick; try (simpl; now rewrite ?app_nil_r).
  assert (Hi : gone i = name_in name names) by (apply Hpick; simpl; auto).
  assert (Hrest : picks_named names gone (flat_map tags_node contents)).
  { intros j nm Hin. apply Hpick. simpl. auto. }
  cbn [detach is_element text_outside_node]. rewrite Hi.
  destruct (name_in name names); [reflexivity|].
  rewrite detach_node_tag. unfold get_text. simpl. rewrite app_nil_r.
  clear Hpick Hi.
  induction IH as [|c l Hc _ IHl]; [reflexivity|].
  simpl in Hrest. apply picks_named_app in Hrest as [Hc' Hl'].
  rewrite detach_cons, flat_map_app. simpl flat_map at 3.
  f_equal; [now apply Hc | now apply IHl].
Qed.

Lemma get_text_detach (gone : nat -> bool) (s : soup) :
  picks_named names gone (tags s) ->
  get_text (detach gone s) = text_outside names s.
Proof.
  induction s as [|c l IH]; intros Hpick; [reflexivity|].
  apply picks_named_app in Hpick as [Hc Hl].
  rewrite detach_cons.
  change (get_text (detach gone [c] ++ detach gone l))
    with (flat_map get_text_node (detach gone [c] ++ detach gone l)).
  rewrite flat_map_app.
  change (get_text (detach gone [c]) ++ get_text (detach gone l)
          = text_outside names (c :: l)).
  rewrite (get_text_detach_node gone c Hc), (IH Hl). reflexivity.
Qed.

(** No element named in [names] is left once they are detached. *)
Lemma find_all_detach_node (gone : nat -> bool) (n : node) :
  picks_named names gone (tags_node n) ->
  find_all names (detach gone [n]) = [].
Proof.
  induction n as [k t|i name contents IH] using node_induction;
    intros Hpick; try reflexivity.
  assert (Hi : gone i = name_in name names) by (apply Hpick; simpl; auto).
  assert (Hrest : picks_named names gone (flat_map tags_node contents)).
  { intros j nm Hin. apply Hpick. simpl. auto. }
  cbn [detach is_element]. rewrite Hi.
  destruct (name_in name names) eqn:Hname; [reflexivity|].
  rewrite detach_node_tag. unfold find_all. simpl. rewrite Hname, app_nil_r.
  simpl. clear Hpick Hi.
  induction IH as [|c l Hc _ IHl]; [reflexivity|].
  simpl in Hrest. apply picks_named_app in Hrest as [Hc' Hl'].
  rewrite detach_cons, flat_map_app.
  apply Hc in Hc'. unfold find_all in Hc'. rewrite Hc'. now apply IHl.
Qed.

Lemma find_all_detach (gone : nat -> bool) (s : soup) :
  picks_named names gone (tags s) -> find_all names (detach gone s) = [].
Proof.
  induction s as [|c l IH]; intros Hpick; [reflexivity|].
  apply picks_named_app in Hpick as [Hc Hl].
  rewrite detach_cons.
  change (find_all names (detach gone [c] ++ detach gone l))
    with (flat_map (find_all_node names)
                   (detach gone [c] ++ detach gone l)).
  rewrite flat_map_app.
  change (find_all names (detach gone [c]) ++ find_all names (detach gone l)
          = []).
  rewrite (find_all_detach_node gone c Hc), (IH Hl). reflexivity.
Qed.

(** [find_all] lists the identities of the elements named in [names]. *)
Lemma find_all_node_tags (n : node) :
  find_all_node names n
  = map fst (filter (fun t => name_in (snd t) names) (tags_node n)).
Proof.
  induction n as [k t|i name contents IH] using node_induction;
    try reflexivity.
  simpl. destruct (name_in name names); simpl; [f_equal|];
    (induction IH as [|c l Hc _ IHl]; [reflexivity|];
     simpl; rewrite filter_app, map_app, Hc, IHl; reflexivity).
Qed.

Lemma find_all_tags (s : soup) :
  find_all names s
  = map fst (filter (fun t => name_in (snd t) names) (tags s)).
Proof.
  unfold find_all, tags. induction s as [|c l IH]; [reflexivity|].
  simpl. now rewrite filter_app, map_app, find_all_node_tags, IH.
Qed.

Lemma unique_name (l : list (nat * str)) (i : nat) (a b : str) :
  NoDup (map fst l) -> In (i, a) l -> In (i, b) l -> a = b.
Proof.
  induction l as [|[j c] l IH]; simpl; [tauto|].
  intros Hnd Ha Hb. inversion Hnd as [|? ? Hnotin Hnd']; subst.
  destruct Ha as [Ha|Ha], Hb as [Hb|Hb].
  - congruence.
  - inversion Ha; subst. exfalso. apply Hnotin.
    change i with (fst (i, b)). now apply in_map.
  - inversion Hb; subst. exfalso. apply Hnotin.
    change i with (fst (i, a)). now apply in_map.
  - now apply IH.
Qed.

(** With distinct identities, the elements the loop decomposes are exactly
    the elements named in [names]. *)
Lemma found_picks_named (s : soup) :
  distinct_elements s ->
  picks_named names
    (fun i => existsb (fun e => Nat.eqb e i) (find_all names s)) (tags s).
Proof.
  intros Hnd i name Hin. rewrite find_all_tags.
  destruct (name_in name names) eqn:Hname.
  - apply existsb_exists. exists i. split; [|apply Nat.eqb_refl].
    change i with (fst (i, name)). apply in_map, filter_In. auto.
  - destruct (existsb _ _) eqn:Hex; [|reflexivity].
    apply existsb_exists in Hex as (j & Hj & Heq).
    apply Nat.eqb_eq in Heq. subst j.
    apply in_map_iff in Hj as ([j nm] & Hfst & Hf). simpl in Hfst. subst j.
    apply filter_In in Hf as [Hf Hnm]. simpl in Hnm.
    rewrite (unique_name (tags s) i name nm Hnd Hin Hf) in Hname.
    congruence.
Qed.

End Detach.

(** C8. When the site answers 200 and the parser returns a tree, the text the
    webpage extractor returns is made from the strings of the tree that lie
    outside every script and style element: the strings inside those
    elements take no part in it, and no such element is left in the tree
    that is read. *)
Theorem scripts_and_styles_excluded (W : World) (url : str) (r : response)
        (s : soup)
        (Hget : requests_get W url = Return r)
        (Hok : status_code r = 200%N)
        (Hparse : html_parser W (text r) = Return s)
        (Hid : distinct_elements s) :
  fetch_webpage_content W url
  = Return (Some (collapse (text_outside [lit "script"; lit "style"] s)), None)
  /\ get_text (decompose_scripts s)
     = text_outside [lit "script"; lit "style"] s
  /\ find_all [lit "script"; lit "style"] (decompose_scripts s) = [].
Proof.
  pose proof (found_picks_named [lit "script"; lit "style"] s Hid) as Hpick.
  assert (Htext : get_text (decompose_scripts s)
                  = text_outside [lit "script"; lit "style"] s).
  { rewrite decompose_scripts_detach. now apply get_text_detach. }
  split; [|split; [exact Htext|]].
  - unfold fetch_webpage_content, webpage_text, raise_for_status.
    rewrite Hget. simpl. rewrite Hok. simpl. rewrite Hparse. simpl.
    now rewrite Htext.
  - rewrite decompose_scripts_detach. now apply find_all_detach.
Qed.

Lemma scripts_and_styles_excluded_witness :
  fetch_webpage_content (web_world styled_page styled_tree)
                        (lit "https://example.com")
  = Return (Some (lit "Helloworld"), None).
Proof.
  destruct (scripts_and_styles_excluded
              (web_world styled_page styled_tree) (lit "https://example.com")
              {| status_code := 200; text := styled_page |} styled_tree)
    as (H & _).
  - reflexivity.
  - reflexivity.
  - reflexivity.
  - unfold distinct_elements. simpl. repeat constructor; simpl; intuition lia.
  - exact H.
Defined.

(** ** The text of a web page *)



Lemma startswith_prefix (sep s : str) :
  startswith sep s = true <-> exists rest, s = sep ++ rest.
Proof.
  revert s. induction sep as [|x sep IH]; intros s; simpl.
  - split; [intros _; now exists s | reflexivity].
  - destruct s as [|y s].
    + split; [discriminate | intros [rest H]; discriminate H].
    + rewrite andb_true_iff, N.eqb_eq, IH. split.
      * intros [-> [rest ->]]. now exists rest.
      * intros [rest H]. inversion H; subst. split; [reflexivity|].
        now exists rest.
Qed.


















(** ** More on the prompt *)

(** X1. A content of at most 8000 characters is embedded whole: nothing is
    cut. *)
Theorem short_content_embedded_whole (query content : str)
        (Hshort : length content <= 8000) :
  analysis_prompt query content
  = prompt_head ++ query ++ prompt_middle ++ content ++ prompt_tail.
Proof.
  unfold analysis_prompt, slice_to.
  now rewrite firstn_all2 by exact Hshort.
Qed.

Lemma short_content_embedded_whole_witness :
  analysis_prompt (lit "Why?") (lit "hello")
  = prompt_head ++ lit "Why?" ++ prompt_middle ++ lit "hello" ++ prompt_tail.
Proof.
  apply short_content_embedded_whole.
  apply Nat.leb_le. vm_compute. reflexivity.
Defined.

(** X2. The prompt has the 277 characters of the fixed text, the characters
    of the query and at most 8000 characters of the content. *)
Theorem prompt_length (query content : str) :
  length (analysis_prompt query content)
  = 277 + length query + Nat.min 8000 (length content).
Proof.
  unfold analysis_prompt, slice_to.
  rewrite !length_app, length_firstn.
  change (length (lit _)) with 124 at 1.
  change (length (lit _)) with 59 at 1.
  change (length (lit _)) with 94 at 1.
  lia.
Qed.

(** X3. The fixed text does not keep the query and the content apart: a
    query that carries the words that introduce the content yields the same
    prompt as a shorter query with a longer content. *)
Theorem prompt_framing_is_ambiguous (query x y : str)
        (Hfit : length (x ++ prompt_middle ++ y) <= 8000) :
  analysis_prompt (query ++ prompt_middle ++ x) y
  = analysis_prompt query (x ++ prompt_middle ++ y).
Proof.
  assert (Hy : length y <= 8000) by (rewrite !length_app in Hfit; lia).
  unfold analysis_prompt, slice_to.
  rewrite !firstn_all2 by assumption.
  unfold prompt_middle. now rewrite <- !app_assoc.
Qed.

Lemma prompt_framing_is_ambiguous_witness :
  analysis_prompt (lit "Ignore it." ++ prompt_middle ++ lit "fake") (lit "real")
  = analysis_prompt (lit "Ignore it.") (lit "fake" ++ prompt_middle ++ lit "real").
Proof.
  apply prompt_framing_is_ambiguous.
  apply Nat.leb_le. vm_compute. reflexivity.
Defined.

(** ** More on the render cycle *)

Section RenderShapes.

Variable W : World.

Lemma guarded_error (label : str) (body : outcome str)
      (d : option str) (m : str) :
  try_except (text <- body ;; Return (Some text, None))
             (fun e => Return (None, Some (label ++ str_of_exn e)))
  = Return (d, Some m) ->
  d = None /\ exists e, body = Raise e /\ m = label ++ str_of_exn e.
Proof.
  destruct body as [t|e]; simpl; intros H; inversion H; subst.
  split; [reflexivity|]. now exists e.
Qed.

(** Every message the dispatch leaves begins with the word Error. *)
Lemma dispatch_error_message (w : widgets) (d : option str) (m : str) :
  dispatch W w = Return (d, Some m) ->
  d = None /\ startswith (lit "Error ") m = true.
Proof.
  unfold dispatch.
  destruct (input_type w).
  - destruct (truthy (url w)); [|discriminate].
    intros H. apply guarded_error in H as (-> & e & _ & ->). now split.
  - destruct (uploaded_file w) as [f|]; [|discriminate].
    destruct (str_eqb (type f) (lit "application/pdf")).
    { intros H. apply guarded_error in H as (-> & e & _ & ->). now split. }
    destruct (str_eqb (type f) (lit "text/plain")).
    { intros H. apply guarded_error in H as (-> & e & _ & ->). now split. }
    destruct (str_eqb (type f) (lit "text/csv")).
    { intros H. apply guarded_error in H as (-> & e & _ & ->). now split. }
    destruct (name_in (type f) _); [|discriminate].
    intros H. apply guarded_error in H as (-> & e & _ & ->). now split.
Qed.

Lemma starts_with_error_truthy (m : str) :
  startswith (lit "Error ") m = true -> truthy m = true.
Proof. destruct m; [discriminate | reflexivity]. Qed.

Lemma render_error (w : widgets) (m : str) :
  dispatch W w = Return (None, Some m) -> render W w = [ShowError m].
Proof.
  intros H. destruct (dispatch_error_message w None m H) as [_ Hm].
  unfold render. rewrite H, (starts_with_error_truthy m Hm). reflexivity.
Qed.

Lemma render_loaded (w : widgets) (c : str) :
  dispatch W w = Return (Some c, None) ->
  render W w
  = if truthy c then
      ShowSuccess :: QueryInput :: AnalyzeButton ::
        (if analyze_clicked w then analyze W (user_query w) c else [])
    else [].
Proof. intros H. unfold render. now rewrite H. Qed.

(** The three things the dispatch can leave behind. *)
Lemma dispatch_cases (w : widgets) :
  dispatch W w = Return (None, None)
  \/ (exists m, dispatch W w = Return (None, Some m))
  \/ (exists c, dispatch W w = Return (Some c, None)).
Proof.
  destruct (dispatch_shape W w) as ([[c|] [m|]] & Hr & Hshape); eauto.
  destruct Hshape as [Hnn|[]]. discriminate Hnn.
Qed.

Lemma in_analyze (q c : str) (e : event) :
  In e (analyze W q c) ->
  (q = [] /\ e = ShowWarning)
  \/ (q <> [] /\
      (e = ComposePrompt (analysis_prompt q c)
       \/ e = AgentRun (analysis_prompt q c)
       \/ (exists content,
              agent_run W (analysis_prompt q c) = Return content
              /\ e = ShowResults content)
       \/ (exists x,
              agent_run W (analysis_prompt q c) = Raise x
              /\ e = Unhandled x))).
Proof.
  unfold analyze. destruct q as [|a q]; simpl.
  - intros [<-|[]]. now left.
  - intros H. right. split; [discriminate|].
    destruct H as [<-|[<-|H]]; auto.
    destruct (agent_run W _) as [content|x]; destruct H as [<-|[]].
    + right; right; left. now exists content.
    + right; right; right. now exists x.
Qed.

End RenderShapes.

(** X4. The agent is run at most once in a render cycle, and exactly when
    the extraction gave a non-empty text, the button was pressed and the
    query is not empty; the prompt it gets is the one composed from that
    query and that text. *)
Theorem agent_runs_exactly_when (W : World) (w : widgets) (p : str) :
  (In (AgentRun p) (render W w) <->
   exists c, dispatch W w = Return (Some c, None) /\ c <> []
             /\ analyze_clicked w = true /\ user_query w <> []
             /\ p = analysis_prompt (user_query w) c)
  /\ length (filter is_agent_run (render W w)) <= 1.
Proof.
  destruct (dispatch_cases W w) as [H|[[m H]|[c H]]].
  - destruct (render_no_content W w None H) as (Hno & _).
    assert (Hr : render W w = []) by (unfold render; now rewrite H).
    rewrite Hr. split; [|simpl; lia].
    split; [intros []|]. intros (c & Hc & _). congruence.
  - rewrite (render_error W w m H). split; [|simpl; lia].
    split; [intros [E|[]]; discriminate E|].
    intros (c & Hc & _). congruence.
  - rewrite (render_loaded W w c H).
    destruct c as [|a c]; simpl.
    { split; [|lia]. split; [intros []|].
      intros (c' & Hc & Hne & _). rewrite H in Hc. inversion Hc; subst.
      congruence. }
    destruct (analyze_clicked w) eqn:Hclick; simpl.
    2:{ split; [|lia]. split; [intuition discriminate|].
        intros (_ & _ & _ & Hc & _). discriminate Hc. }
    unfold analyze. destruct (user_query w) as [|b q] eqn:Hq; simpl.
    { split; [|lia]. split; [intuition discriminate|].
      intros (_ & _ & _ & _ & Hne & _). congruence. }
    split.
    + split.
      * intros [E|[E|[E|[E|[E|E]]]]]; try discriminate E.
        -- inversion E; subst. exists (a :: c).
           repeat split; auto; discriminate.
        -- destruct (agent_run W _); destruct E as [E|[]]; discriminate E.
      * intros (c' & Hc & _ & _ & _ & ->). rewrite H in Hc.
        inversion Hc; subst. auto 10.
    + destruct (agent_run W _); simpl; lia.
Qed.

Lemma agent_runs_exactly_when_witness :
  let w := upload "text/plain" (list_byte_of_string "hello") "Why?" true in
  In (AgentRun (analysis_prompt (lit "Why?") (lit "hello")))
     (render offline w).
Proof.
  intros w.
  apply (proj1 (agent_runs_exactly_when offline w _)).
  exists (lit "hello"). repeat split; try reflexivity; discriminate.
Defined.

(** X5. What the page shows after the button tells how the agent answered:
    results are shown only when the agent returned them for the composed
    prompt, and the only exception that ends a render cycle is one the agent
    raised; the extraction never ends it. *)
Theorem agent_outcome_is_shown (W : World) (w : widgets) :
  (forall content,
      In (ShowResults content) (render W w) ->
      exists c, dispatch W w = Return (Some c, None)
                /\ agent_run W (analysis_prompt (user_query w) c)
                   = Return content)
  /\ (forall e,
        In (Unhandled e) (render W w) ->
        exists c, dispatch W w = Return (Some c, None)
                  /\ agent_run W (analysis_prompt (user_query w) c)
                     = Raise e).
Proof.
  assert (Hgen : forall ev,
             In ev (render W w) ->
             (forall content, ev = ShowResults content ->
                exists c, dispatch W w = Return (Some c, None)
                          /\ agent_run W (analysis_prompt (user_query w) c)
                             = Return content)
             /\ (forall e, ev = Unhandled e ->
                   exists c, dispatch W w = Return (Some c, None)
                             /\ agent_run W (analysis_prompt (user_query w) c)
                                = Raise e)).
  { intros ev Hin.
    destruct (dispatch_cases W w) as [H|[[m H]|[c H]]].
    - assert (Hr : render W w = []) by (unfold render; now rewrite H).
      rewrite Hr in Hin. destruct Hin.
    - rewrite (render_error W w m H) in Hin.
      destruct Hin as [<-|[]]. split; discriminate.
    - rewrite (render_loaded W w c H) in Hin.
      destruct (truthy c); [|destruct Hin].
      destruct Hin as [<-|[<-|[<-|Hin]]]; try (split; discriminate).
      destruct (analyze_clicked w); [|destruct Hin].
      apply in_analyze in Hin
        as [[_ ->]|[_ [->|[->|[(content & Ha & ->)|(x & Ha & ->)]]]]];
        try (split; discriminate).
      + split; [|discriminate]. intros content' E. inversion E; subst.
        now exists c.
      + split; [discriminate|]. intros e E. inversion E; subst.
        now exists c. }
  split; intros x Hin; destruct (Hgen _ Hin) as [H1 H2]; auto.
Qed.

Lemma agent_outcome_is_shown_witness :
  let w := upload "text/plain" (list_byte_of_string "hello") "Why?" true in
  In (ShowResults (lit "Because."))
     (render (chat_world (Return (lit "Because."))) w)
  /\ agent_run (chat_world (Return (lit "Because.")))
               (analysis_prompt (lit "Why?") (lit "hello"))
     = Return (lit "Because.").
Proof.
  intros w.
  assert (Hin : In (ShowResults (lit "Because."))
                   (render (chat_world (Return (lit "Because."))) w))
    by (vm_compute; auto 10).
  split; [exact Hin|].
  destruct (proj1 (agent_outcome_is_shown
                     (chat_world (Return (lit "Because."))) w) _ Hin)
    as (c & Hc & Ha).
  reflexivity.
Defined.

(** X6. A failed extraction is never silent: the render cycle shows the
    error message, which begins with the word Error, and nothing else. *)
Theorem failure_is_displayed (W : World) (w : widgets)
        (data_content : option str) (m : str)
        (Hfail : dispatch W w = Return (data_content, Some m)) :
  render W w = [ShowError m] /\ startswith (lit "Error ") m = true.
Proof.
  destruct (dispatch_error_message W w data_content m Hfail) as [-> Hm].
  split; [now apply render_error | exact Hm].
Qed.

Lemma failure_is_displayed_witness :
  render offline (browse "https://example.com" "Why?" true)
  = [ShowError (lit "Error fetching content: Connection refused")].
Proof.
  destruct (failure_is_displayed offline
              (browse "https://example.com" "Why?" true) None
              (lit "Error fetching content: Connection refused") eq_refl)
    as [H _].
  exact H.
Defined.

(** X7. The page stays blank in two cases only: no extractor was called, or
    the extraction gave the empty string. *)
Theorem blank_page_cases (W : World) (w : widgets) :
  render W w = [] <->
  dispatch W w = Return (None, None)
  \/ dispatch W w = Return (Some [], None).
Proof.
  destruct (dispatch_cases W w) as [H|[[m H]|[c H]]].
  - split; [auto|]. intros _. unfold render. now rewrite H.
  - rewrite (render_error W w m H), H.
    split; [discriminate | intros [E|E]; discriminate E].
  - rewrite (render_loaded W w c H), H.
    destruct c; simpl; split; auto; try discriminate.
    intros [E|E]; discriminate E.
Qed.

(** ** More on the extractors *)

(** X8. Once the site has answered, its status decides: a status from 400
    to 599 gives the error pair with the text of the HTTP error, whatever
    the body holds; any other status (also one that is no success, such as
    304) has the body parsed and gives its text. *)
Theorem http_status_decides (W : World) (url : str) (r : response)
        (Hget : requests_get W url = Return r) :
  ((400 <= status_code r < 600)%N ->
   fetch_webpage_content W url
   = Return (None,
             Some (lit "Error fetching content: " ++ http_error_text W r)))
  /\ ((status_code r < 400 \/ 600 <= status_code r)%N ->
      forall s, html_parser W (text r) = Return s ->
                fetch_webpage_content W url
                = Return (Some (collapse (get_text (decompose_scripts s))),
                          None)).
Proof.
  unfold fetch_webpage_content, webpage_text, raise_for_status.
  rewrite Hget. simpl. split.
  - intros [Hlo Hhi].
    apply N.leb_le in Hlo. apply N.ltb_lt in Hhi.
    now rewrite Hlo, Hhi.
  - intros Hout s Hparse.
    assert (Hc : ((400 <=? status_code r) && (status_code r <? 600))%N
                 = false).
    { apply andb_false_iff. destruct Hout as [H|H].
      - left. apply N.leb_gt. exact H.
      - right. apply N.ltb_ge. exact H. }
    rewrite Hc. simpl. now rewrite Hparse.
Qed.

Lemma http_status_decides_witness :
  fetch_webpage_content (status_world 404 styled_page styled_tree)
                        (lit "https://example.com/none")
  = Return (None,
            Some (lit "Error fetching content: 404 Client Error: Not Found"))
  /\ fetch_webpage_content (status_world 300 styled_page styled_tree)
                           (lit "https://example.com")
     = Return (Some (lit "Helloworld"), None).
Proof.
  split.
  - apply (proj1 (http_status_decides
                    (status_world 404 styled_page styled_tree)
                    (lit "https://example.com/none")
                    {| status_code := 404; text := styled_page |} eq_refl)).
    simpl. lia.
  - apply (proj2 (http_status_decides
                    (status_world 300 styled_page styled_tree)
                    (lit "https://example.com")
                    {| status_code := 300; text := styled_page |} eq_refl)
             (or_introl eq_refl) styled_tree eq_refl).
Defined.

Lemma pdf_pages_app (W : World) (before rest : list (page W))
      (texts : list str) (text : str) :
  Forall2 (fun p t => extract_text W p = Return t) before texts ->
  pdf_pages W (before ++ rest) text
  = pdf_pages W rest (text ++ pages_terminated texts).
Proof.
  intros H. revert text.
  induction H as [|p t before texts Hp _ IH]; intros text; simpl.
  - now rewrite app_nil_r.
  - rewrite Hp. simpl. rewrite IH. unfold pages_terminated. simpl.
    now rewrite <- !app_assoc.
Qed.

(** X9. When a page fails to yield its text, the PDF extractor returns the
    error of that page and none of the text of the pages before it. *)
Theorem pdf_failing_page_discards_text (W : World) (f : UploadedFile)
        (before after : list (page W)) (p : page W) (texts : list str)
        (e : exn)
        (Hread : PdfReader W f = Return (before ++ p :: after))
        (Hbefore : Forall2 (fun q t => extract_text W q = Return t)
                           before texts)
        (Hfail : extract_text W p = Raise e) :
  extract_text_from_pdf W f
  = Return (None, Some (lit "Error processing PDF: " ++ str_of_exn e)).
Proof.
  unfold extract_text_from_pdf, pdf_text. rewrite Hread. simpl.
  rewrite (pdf_pages_app W before (p :: after) texts [] Hbefore).
  simpl. now rewrite Hfail.
Qed.

Lemma pdf_failing_page_discards_text_witness :
  extract_text_from_pdf
    (scanned_world [Some (lit "one"); None; Some (lit "three")]) some_pdf
  = Return (None, Some (lit "Error processing PDF: cannot read page")).
Proof.
  apply (pdf_failing_page_discards_text
           (scanned_world [Some (lit "one"); None; Some (lit "three")])
           some_pdf [Some (lit "one")] [Some (lit "three")] None
           [lit "one"] (Exception (lit "cannot read page"))).
  - reflexivity.
  - repeat constructor.
  - reflexivity.
Defined.

(** X10. A parsable PDF unlocks the query exactly when it has a page: the
    newline after each page makes the text non-empty even when no page
    holds any text, and a document without pages leaves the page blank. *)
Theorem pdf_unlocks_iff_has_page (W : World) (w : widgets)
        (f : UploadedFile) (pages : list (page W)) (texts : list str)
        (Hsource : input_type w = UploadFile)
        (Hfile : uploaded_file w = Some f)
        (Htype : type f = lit "application/pdf")
        (Hread : PdfReader W f = Return pages)
        (Hpages : Forall2 (fun p t => extract_text W p = Return t)
                          pages texts) :
  (pages <> [] ->
   In ShowSuccess (render W w) /\ In QueryInput (render W w)
   /\ In AnalyzeButton (render W w))
  /\ (pages = [] -> render W w = []).
Proof.
  assert (Hd : dispatch W w = Return (Some (pages_terminated texts), None)).
  { unfold dispatch. rewrite Hsource, Hfile, Htype. simpl.
    unfold extract_text_from_pdf, pdf_text. rewrite Hread. simpl.
    now rewrite (pdf_pages_terminated W pages texts [] Hpages). }
  rewrite (render_loaded W w _ Hd).
  destruct Hpages as [|p t pages texts Hp Hrest]; split; try congruence.
  - reflexivity.
  - intros _. unfold pages_terminated. simpl.
    destruct t; simpl; auto 10.
Qed.

Lemma pdf_unlocks_iff_has_page_witness :
  let w := upload "application/pdf" (list_byte_of_string "%PDF-1.4") "" false in
  render (pdf_world [[]; []]) w = [ShowSuccess; QueryInput; AnalyzeButton]
  /\ In QueryInput (render (pdf_world [[]; []]) w)
  /\ render (pdf_world []) w = [].
Proof.
  intros w. split; [reflexivity|]. split.
  - apply (proj1 (pdf_unlocks_iff_has_page (pdf_world [[]; []]) w some_pdf
                    [[]; []] [[]; []] eq_refl eq_refl eq_refl eq_refl
                    ltac:(repeat constructor))).
    discriminate.
  - apply (proj2 (pdf_unlocks_iff_has_page (pdf_world []) w some_pdf
                    [] [] eq_refl eq_refl eq_refl eq_refl
                    ltac:(constructor))).
    reflexivity.
Defined.

(** ** More on the text extractor *)

Lemma utf8_decode_ascii (bs : list N) :
  Forall (fun b => (b < 128)%N) bs -> utf8_decode bs = Some bs.
Proof.
  induction 1 as [|b bs Hb _ IH]; [reflexivity|].
  simpl. apply N.ltb_lt in Hb. now rewrite Hb, IH.
Qed.

(** One step of the decoder: a well-formed sequence of one to four bytes
    yields one character. *)
Lemma utf8_decode_step (bs : list N) (s : str) :
  utf8_decode bs = Some s ->
  bs = [] /\ s = []
  \/ exists unit_ rest c s',
      bs = unit_ ++ rest /\ 1 <= length unit_ <= 4
      /\ utf8_decode unit_ = Some [c]
      /\ utf8_decode rest = Some s' /\ s = c :: s'
      /\ (forall more, utf8_decode (unit_ ++ more)
                       = option_map (cons c) (utf8_decode more)).
Proof.
  destruct bs as [|b0 r0]; [intros H; inversion H; now left|].
  intros H. right. cbn [utf8_decode] in H.
  destruct (b0 <? 128)%N eqn:E0.
  { destruct (utf8_decode r0) as [s'|] eqn:Er; [|discriminate].
    inversion H; subst.
    exists [b0], r0, b0, s'. repeat split; simpl; try lia; auto.
    - now rewrite E0.
    - intros more. now rewrite E0. }
  destruct r0 as [|b1 r1]; [discriminate|].
  destruct ((194 <=? b0) && (b0 <=? 223))%N eqn:E1.
  { destruct (cont b1) eqn:C1; [|discriminate].
    destruct (utf8_decode r1) as [s'|] eqn:Er; [|discriminate].
    inversion H; subst.
    eexists [b0; b1], r1, _, s'. repeat split; simpl; try lia; auto.
    - now rewrite E0, E1, C1.
    - intros more. now rewrite E0, E1, C1. }
  destruct r1 as [|b2 r2]; [discriminate|].
  destruct ((224 <=? b0) && (b0 <=? 239))%N eqn:E2.
  { match type of H with
    | (if ?c then _ else _) = _ => destruct c eqn:C2; [|discriminate]
    end.
    destruct (utf8_decode r2) as [s'|] eqn:Er; [|discriminate].
    inversion H; subst.
    eexists [b0; b1; b2], r2, _, s'. repeat split; simpl; try lia; auto.
    - now rewrite E0, E1, E2, C2.
    - intros more. now rewrite E0, E1, E2, C2. }
  destruct r2 as [|b3 r3]; [discriminate|].
  destruct ((240 <=? b0) && (b0 <=? 244))%N eqn:E3; [|discriminate].
  match type of H with
  | (if ?c then _ else _) = _ => destruct c eqn:C3; [|discriminate]
  end.
  destruct (utf8_decode r3) as [s'|] eqn:Er; [|discriminate].
  inversion H; subst.
  eexists [b0; b1; b2; b3], r3, _, s'. repeat split; simpl; try lia; auto.
  - now rewrite E0, E1, E2, E3, C3.
  - intros more. now rewrite E0, E1, E2, E3, C3.
Qed.

Lemma utf8_decode_length (n : nat) (bs : list N) (s : str) :
  length bs <= n -> utf8_decode bs = Some s ->
  length s <= length bs <= 4 * length s.
Proof.
  revert bs s. induction n as [|n IH]; intros bs s Hn H;
    apply utf8_decode_step in H
      as [[-> ->]|(u & rest & c & s' & -> & Hu & _ & Hrest & -> & _)];
    simpl; try lia.
  - rewrite length_app in Hn. lia.
  - rewrite length_app in *.
    assert (Hr : length rest <= n) by lia.
    specialize (IH rest s' Hr Hrest). simpl. lia.
Qed.

(** Decoding goes through a concatenation once the first part is whole. *)
Lemma utf8_decode_app (n : nat) (a : list N) (x : str) (b : list N) :
  length a <= n -> utf8_decode a = Some x ->
  utf8_decode (a ++ b) = option_map (app x) (utf8_decode b).
Proof.
  revert a x. induction n as [|n IH]; intros a x Hn H;
    apply utf8_decode_step in H
      as [[-> ->]|(u & rest & c & s' & -> & Hu & _ & Hrest & -> & Hmore)];
    try (simpl; now destruct (utf8_decode b)).
  - rewrite length_app in Hn. lia.
  - rewrite length_app in Hn.
    assert (Hr : length rest <= n) by lia.
    rewrite <- app_assoc, Hmore, (IH rest s' Hr Hrest).
    now destruct (utf8_decode b).
Qed.

Lemma utf8_decode_bad_start (b : N) (rest : list N) :
  bad_start b = true -> utf8_decode (b :: rest) = None.
Proof.
  unfold bad_start. intros H.
  assert (Hr : (128 <= b <= 193 \/ 245 <= b)%N).
  { apply orb_true_iff in H as [H|H].
    - apply andb_true_iff in H as [H1 H2].
      apply N.leb_le in H1, H2. lia.
    - apply N.leb_le in H. lia. }
  assert (Hout : forall lo hi, (193 < lo)%N -> (hi < 245)%N ->
                               ((lo <=? b) && (b <=? hi))%N = false).
  { intros lo hi Hlo Hhi. apply andb_false_iff.
    rewrite N.leb_gt, N.leb_gt. lia. }
  assert (E0 : (b <? 128)%N = false) by (apply N.ltb_ge; lia).
  assert (E1 := Hout 194%N 223%N ltac:(lia) ltac:(lia)).
  assert (E2 := Hout 224%N 239%N ltac:(lia) ltac:(lia)).
  assert (E3 := Hout 240%N 244%N ltac:(lia) ltac:(lia)).
  cbn [utf8_decode]. rewrite E0.
  destruct rest as [|b1 r1]; [reflexivity|]. rewrite E1.
  destruct r1 as [|b2 r2]; [reflexivity|]. rewrite E2.
  destruct r2 as [|b3 r3]; [reflexivity|]. now rewrite E3.
Qed.

(** X11. A file of ASCII bytes is returned as it is, character for byte. *)
Theorem ascii_file_unchanged (W : World) (f : UploadedFile)
        (Hascii : Forall (fun b => (Byte.to_N b < 128)%N) (read f)) :
  extract_text_from_txt W f
  = Return (Some (map Byte.to_N (read f)), None).
Proof.
  unfold extract_text_from_txt, txt_text, decode_utf8.
  rewrite utf8_decode_ascii; [reflexivity|].
  apply Forall_map. exact Hascii.
Qed.

Lemma ascii_file_unchanged_witness :
  extract_text_from_txt offline
    {| type := lit "text/plain"; read := list_byte_of_string "a,b" |}
  = Return (Some (lit "a,b"), None).
Proof.
  apply (ascii_file_unchanged offline
           {| type := lit "text/plain"; read := list_byte_of_string "a,b" |}).
  repeat constructor.
Defined.

(** X12. The text of a file has at most as many characters as the file has
    bytes, and at least a quarter of that number. *)
Theorem text_length_bounds (W : World) (f : UploadedFile) (content : str)
        (Hok : extract_text_from_txt W f = Return (Some content, None)) :
  length content <= length (read f) <= 4 * length content.
Proof.
  unfold extract_text_from_txt, txt_text, decode_utf8 in Hok.
  destruct (utf8_decode (map Byte.to_N (read f))) as [s|] eqn:E;
    simpl in Hok; [|discriminate].
  inversion Hok; subst.
  rewrite <- (length_map Byte.to_N (read f)).
  now apply utf8_decode_length with (n := length (map Byte.to_N (read f))).
Qed.

Lemma text_length_bounds_witness :
  let f := {| type := lit "text/plain";
              read := [x63; xc3; xa9; xe2; x82; xac]%byte |} in
  extract_text_from_txt offline f = Return (Some [99; 233; 8364]%N, None)
  /\ 3 <= 6 <= 4 * 3.
Proof.
  intros f. split; [reflexivity|].
  apply (text_length_bounds offline f [99; 233; 8364]%N). reflexivity.
Defined.

(** X13. One byte that cannot begin a UTF-8 sequence, anywhere after
    well-formed text, makes the whole file fail: the text before it is not
    returned. *)
Theorem bad_byte_fails_whole_file (W : World) (f : UploadedFile)
        (good rest : list byte) (bad : byte) (s : str)
        (Hread : read f = good ++ bad :: rest)
        (Hgood : utf8_decode (map Byte.to_N good) = Some s)
        (Hbad : bad_start (Byte.to_N bad) = true) :
  extract_text_from_txt W f
  = Return (None,
            Some (lit "Error processing text file: "
                    ++ unicode_error_text W (read f))).
Proof.
  unfold extract_text_from_txt, txt_text, decode_utf8.
  rewrite Hread at 1. rewrite map_app. simpl map.
  rewrite (utf8_decode_app (length (map Byte.to_N good)) _ s _ (le_n _) Hgood).
  now rewrite (utf8_decode_bad_start _ _ Hbad).
Qed.

Lemma bad_byte_fails_whole_file_witness :
  extract_text_from_txt offline
    {| type := lit "text/plain";
       read := list_byte_of_string "price " ++ [x80; x35]%byte |}
  = Return (None,
            Some (lit "Error processing text file: invalid start byte")).
Proof.
  apply (bad_byte_fails_whole_file offline
           {| type := lit "text/plain";
              read := list_byte_of_string "price " ++ [x80; x35]%byte |}
           (list_byte_of_string "price ") [x35%byte] x80%byte
           (lit "price ")).
  - reflexivity.
  - reflexivity.
  - reflexivity.
Defined.

(** ** More on the text of a web page *)

Lemma linebreak_is_space (c : char) :
  islinebreak c = true -> isspace c = true.
Proof.
  unfold islinebreak. intros H.
  assert (Hc : (10 <= c <= 13 \/ 28 <= c <= 30 \/ c = 133 \/ c = 8232
                \/ c = 8233)%N).
  { repeat (apply orb_true_iff in H as [H|H]);
      try (apply andb_true_iff in H as [H1 H2]; apply N.leb_le in H1, H2);
      try apply N.eqb_eq in H; lia. }
  assert (Hv : In c [10; 11; 12; 13; 28; 29; 30; 133; 8232; 8233]%N).
  { simpl. lia. }
  simpl in Hv.
  repeat (destruct Hv as [<-|Hv]; [reflexivity|]). destruct Hv.
Qed.

Lemma visible_app (a b : str) : visible (a ++ b) = visible a ++ visible b.
Proof. apply filter_app. Qed.

Lemma visible_concat (l : list str) :
  visible (concat l) = concat (map visible l).
Proof. symmetry. apply concat_filter_map. Qed.

Lemma visible_dropwhile (s : str) : visible (dropwhile isspace s) = visible s.
Proof.
  induction s as [|c s IH]; [reflexivity|]. simpl.
  destruct (isspace c) eqn:Hc; simpl; [exact IH | now rewrite Hc].
Qed.

Lemma visible_strip (s : str) : visible (strip s) = visible s.
Proof.
  unfold strip, rstrip, lstrip, visible.
  rewrite filter_rev. fold (visible (dropwhile isspace (rev (dropwhile isspace s)))).
  rewrite visible_dropwhile. unfold visible.
  rewrite filter_rev, rev_involutive. apply visible_dropwhile.
Qed.

Lemma visible_join (sep : str) (parts : list str) :
  visible sep = [] -> visible (join sep parts) = concat (map visible parts).
Proof.
  intros Hsep. induction parts as [|p [|q ps] IH]; [reflexivity| |].
  - simpl. now rewrite app_nil_r.
  - change (join sep (p :: q :: ps)) with (p ++ sep ++ join sep (q :: ps)).
    rewrite !visible_app, Hsep, IH. reflexivity.
Qed.

Lemma concat_truthy (l : list str) : concat (filter truthy l) = concat l.
Proof.
  induction l as [|p l IH]; [reflexivity|].
  destruct p; simpl; [exact IH | now rewrite IH].
Qed.

Lemma visible_cons (c : char) (s : str) :
  visible (c :: s) = if isspace c then visible s else c :: visible s.
Proof. unfold visible. simpl. now destruct (isspace c). Qed.

Lemma split_from_nonempty (sep s : str) (k : nat) : split_from sep k s <> [].
Proof.
  revert k. induction s as [|c s IH]; intros k; simpl; [discriminate|].
  destruct k; [|apply IH].
  destruct (startswith sep (c :: s)); [discriminate|].
  destruct (split_from sep 0 s); discriminate.
Qed.

(** Splitting at a separator made of whitespace drops whitespace only. *)
Lemma visible_split_from (sep s : str) (k : nat) :
  sep <> [] -> visible sep = [] -> visible (firstn k s) = [] ->
  visible (concat (split_from sep k s)) = visible s.
Proof.
  intros Hne Hsep. revert k. induction s as [|c s IH]; intros k Hk.
  - reflexivity.
  - destruct k as [|k].
    + cbn [split_from]. destruct (startswith sep (c :: s)) eqn:Hsw.
      * apply startswith_prefix in Hsw as [rest Hrest].
        destruct sep as [|x sep]; [congruence|].
        simpl in Hrest. inversion Hrest; subst.
        rewrite visible_cons in Hsep.
        destruct (isspace x) eqn:Hx; [|discriminate].
        cbn [concat app]. rewrite IH.
        -- now rewrite (visible_cons x), Hx.
        -- replace (length (x :: sep) - 1) with (length sep)
             by (simpl; lia).
           rewrite firstn_app, firstn_all, Nat.sub_diag. simpl.
           now rewrite app_nil_r.
      * specialize (IH 0 eq_refl).
        destruct (split_from sep 0 s) as [|p ps] eqn:E.
        -- now destruct (split_from_nonempty sep s 0).
        -- cbn [concat] in *. simpl app. rewrite !visible_cons.
           now rewrite IH.
    + cbn [split_from]. simpl firstn in Hk. rewrite visible_cons in Hk.
      destruct (isspace c) eqn:Hc; [|discriminate].
      rewrite (IH k Hk). now rewrite visible_cons, Hc.
Qed.

Lemma visible_splitlines (n : nat) (t : str) :
  length t <= n -> visible (concat (splitlines t)) = visible t.
Proof.
  revert t. induction n as [|n IH]; intros [|c t] Hlen; simpl in Hlen;
    try reflexivity; try lia.
  cbn [splitlines]. destruct (islinebreak c) eqn:Hc.
  - rewrite visible_cons, (linebreak_is_space c Hc). cbn [concat app].
    destruct t as [|c' t']; [reflexivity|].
    destruct ((c =? 13)%N && (c' =? 10)%N) eqn:Hcrlf.
    + apply andb_true_iff in Hcrlf as [_ Hlf]. apply N.eqb_eq in Hlf.
      subst c'. rewrite visible_cons. simpl isspace.
      apply IH. simpl in Hlen. lia.
    + apply IH. lia.
  - assert (Ht : length t <= n) by lia. specialize (IH t Ht).
    destruct (splitlines t) as [|l ls]; cbn [concat app] in *;
      rewrite !visible_cons; now rewrite <- IH.
Qed.

Lemma visible_chunks (t : str) : concat (map visible (chunks t)) = visible t.
Proof.
  rewrite <- (visible_splitlines (length t) t (le_n _)).
  unfold chunks. induction (splitlines t) as [|line lines IH];
    [reflexivity|].
  simpl. rewrite map_app, concat_app, IH, visible_app. f_equal.
  rewrite map_map.
  rewrite (map_ext (fun x => visible (strip x)) visible visible_strip).
  rewrite <- visible_concat, concat_truthy.
  apply visible_split_from; [discriminate|reflexivity|reflexivity].
Qed.

(** X14. The text of a web page keeps every character of the page text that
    is not whitespace, in the same order: collapsing drops and adds
    whitespace only. *)
Theorem collapse_keeps_visible_characters (t : str) :
  visible (collapse t) = visible t.
Proof.
  unfold collapse. rewrite visible_join by reflexivity.
  apply visible_chunks.
Qed.

Lemma splitlines_one_line (t : str) :
  t <> [] -> no_linebreak t = true -> splitlines t = [t].
Proof.
  induction t as [|c t IH]; [congruence|]. intros _ H.
  simpl in H. apply andb_true_iff in H as [Hc Ht].
  apply negb_true_iff in Hc. cbn [splitlines]. rewrite Hc.
  destruct t as [|c' t']; [reflexivity|].
  rewrite IH; [reflexivity|discriminate|exact Ht].
Qed.

Lemma split_one_piece (sep s : str) :
  ~ occurs sep s -> split sep s = [s].
Proof.
  unfold split. induction s as [|c s IH]; intros Hno; [reflexivity|].
  cbn [split_from]. destruct (startswith sep (c :: s)) eqn:Hsw.
  - exfalso. apply Hno. apply startswith_prefix in Hsw as [rest ->].
    now exists [], rest.
  - rewrite IH; [reflexivity|].
    intros (a & b & ->). apply Hno. now exists (c :: a), b.
Qed.

Lemma occurs_adjacent_spaces (t : str) :
  occurs [32%N; 32%N] t -> adjacent_spaces t = true.
Proof.
  intros (a & b & ->). induction a as [|x a IH]; [reflexivity|].
  cbn [app] in *.
  match goal with
  | |- adjacent_spaces (x :: ?l) = true =>
      destruct l as [|y rest] eqn:E;
      [destruct a; discriminate E|]
  end.
  change (adjacent_spaces (x :: y :: rest))
    with ((x =? 32)%N && (y =? 32)%N || adjacent_spaces (y :: rest)).
  rewrite IH. apply orb_true_r.
Qed.

(** X15. A text of one line without two spaces in a row is only stripped:
    the tabs and single spaces inside it stay as they are. *)
Theorem collapse_one_clean_line (t : str)
        (Hline : no_linebreak t = true)
        (Hclean : ~ occurs [32%N; 32%N] t) :
  collapse t = strip t.
Proof.
  destruct t as [|c t]; [reflexivity|].
  unfold collapse, chunks.
  rewrite splitlines_one_line by (discriminate || exact Hline).
  cbn [flat_map]. change (lit "  ") with [32%N; 32%N].
  rewrite (split_one_piece _ _ Hclean).
  simpl. rewrite ?app_nil_r. reflexivity.
Qed.

Lemma collapse_one_clean_line_witness :
  collapse ([32; 97; 9; 98; 32; 99; 32]%N) = [97; 9; 98; 32; 99]%N.
Proof.
  rewrite collapse_one_clean_line.
  - reflexivity.
  - reflexivity.
  - intros H. apply occurs_adjacent_spaces in H. discriminate H.
Defined.

(** X16. Joining the pieces of a split with the separator gives the string
    back: [split] loses nothing but the separators. *)
Theorem join_split_round_trip (sep s : str) (Hsep : sep <> []) :
  join sep (split sep s) = s.
Proof.
  assert (Hgen : forall s k, join sep (split_from sep k s) = skipn k s).
  { clear s. induction s as [|c s IH]; intros k.
    - now destruct k.
    - destruct k as [|k]; [|apply IH].
      cbn [split_from skipn].
      destruct (startswith sep (c :: s)) eqn:Hsw.
      + pose proof (split_from_nonempty sep s (length sep - 1)) as Hne.
        specialize (IH (length sep - 1)).
        destruct (split_from sep (length sep - 1) s) as [|p ps];
          [congruence|].
        change (join sep ([] :: p :: ps)) with (sep ++ join sep (p :: ps)).
        rewrite IH.
        apply startswith_prefix in Hsw as [rest Hrest].
        destruct sep as [|x sep]; [congruence|].
        simpl in Hrest. inversion Hrest; subst.
        replace (length (x :: sep) - 1) with (length sep) by (simpl; lia).
        rewrite skipn_app, skipn_all, Nat.sub_diag. reflexivity.
      + specialize (IH 0).
        destruct (split_from sep 0 s) as [|p [|q ps]] eqn:E.
        * now destruct (split_from_nonempty sep s 0).
        * simpl in *. now rewrite IH.
        * change (join sep ((c :: p) :: q :: ps))
            with (c :: join sep (p :: q :: ps)).
          now rewrite IH. }
  apply (Hgen s 0).
Qed.

Lemma join_split_round_trip_witness :
  join (lit "  ") (split (lit "  ") (lit "a  b     c "))
  = lit "a  b     c ".
Proof. apply join_split_round_trip. discriminate. Defined.

(** ** More on the loop that removes scripts and styles *)

Lemma decompose_all (elements : list nat) (s : soup) :
  fold_left (fun tree script => decompose script tree) elements s
  = detach (fun i => existsb (fun e => Nat.eqb e i) elements) s.
Proof.
  rewrite <- (detach_nothing s) at 1. now rewrite decompose_each.
Qed.

(** X17. The loop of lines 89-90 gives the same tree in whatever order it
    meets the elements and however often it meets one: decomposing an
    element again, or after an element around it, changes nothing. *)
Theorem decompose_order_irrelevant (elements elements' : list nat) (s : soup)
        (Hsame : forall i, In i elements <-> In i elements') :
  fold_left (fun tree script => decompose script tree) elements s
  = fold_left (fun tree script => decompose script tree) elements' s.
Proof.
  rewrite !decompose_all. apply detach_ext. intros i.
  destruct (existsb (fun e => Nat.eqb e i) elements') eqn:E'.
  - apply existsb_exists in E' as (e & He & Hei).
    apply existsb_exists. exists e. split; [now apply Hsame | exact Hei].
  - destruct (existsb (fun e => Nat.eqb e i) elements) eqn:E; [|reflexivity].
    apply existsb_exists in E as (e & He & Hei).
    assert (Ht : existsb (fun e => Nat.eqb e i) elements' = true).
    { apply existsb_exists. exists e. split; [now apply Hsame | exact Hei]. }
    congruence.
Qed.

Lemma decompose_order_irrelevant_witness :
  fold_left (fun tree script => decompose script tree) [2; 3] styled_tree
  = fold_left (fun tree script => decompose script tree) [3; 2; 2]
              styled_tree.
Proof.
  apply decompose_order_irrelevant.
  intros i. simpl. tauto.
Defined.
